(** * EdgeDetectionUI: the edge-detection pipeline, embedded and verified

    The development follows the three source files of the repository:

    - [processors/edges.py]  ->  [Module edges]
      ([_odd], [_gaussian_blur], [run_canny], [run_sobel], [run_laplacian])
    - [utils/image_io.py]    ->  [Module image_io]
      ([pil_to_cv2], [cv2_to_pil])

    The repository's functions are translated line by line.  They call
    NumPy, PIL and OpenCV, which are not part of the repository; what the
    calls compute is fixed in the modules [np], [PIL] and [cv2] below.
    Each operator there is modelled from the specification's description
    of it (sections 4.1 and 4.3); what the specification leaves open (the
    border rule, the kernel taps, the accepted kernel sizes, the order of
    the floating-point operations) follows OpenCV, so that every pipeline
    can be run on a concrete raster.  Where OpenCV does not do what the
    specification says of it, the model follows OpenCV: the conversion of
    a gradient to 8 bits ([cv2.convertScaleAbs]) does not saturate a sample
    of magnitude 2^31 or more, and the Laplacian of kernel size 7 and more
    is accumulated in float32 and is not the exact sum of the products.
    What OpenCV decides per build and processor is the record
    [cv2.build], a parameter of the filters that depend on it.

    Data.  An 8-bit raster is a list of rows of [Z] samples in [0,255]; a
    colour raster has a triple per pixel.  A [CV_64F] gradient of an 8-bit
    raster under an integer kernel is integer valued, and is kept as [Z].
    [float32] and [float64] values that are not integers (the magnitude and
    its min-max rescaling) are IEEE-754 values, [spec_float], at precisions
    24 and 53.  Python's [int] is [Z]; [%] is [Z.modulo], which like Python
    takes the sign of the divisor. *)

From Stdlib Require Import ZArith Bool String Ascii Lia List.
From Stdlib Require Import Floats.SpecFloat.
Import ListNotations.

Local Open Scope Z_scope.

(** ** Shared types *)

(** One colour pixel: three 8-bit samples in the order the raster is in. *)
Definition pixel3 : Type := (Z * Z * Z)%type.

(** A 2-D array of 8-bit (or integer-valued float64) samples. *)
Definition plane : Type := list (list Z).

(** A 3-D array H x W x 3. *)
Definition raster3 : Type := list (list pixel3).

(** A 2-D array of IEEE-754 samples. *)
Definition fplane : Type := list (list spec_float).

(** A NumPy array as the pipeline sees it: [ndim] is 2 or 3. *)
Inductive ndarray : Type :=
| Arr2 (g : plane)
| Arr3 (c : raster3).

(** ** NumPy *)
Module np.

(** [a.shape[0]] and [a.shape[1]] of a rectangular array. *)
Definition rows {A : Type} (a : list (list A)) : nat := length a.

Definition cols {A : Type} (a : list (list A)) : nat := length (hd [] a).

(** [a[i][j]], with [d] outside the array. *)
Definition at2 {A : Type} (d : A) (a : list (list A)) (i j : Z) : A :=
  if (i <? 0) || (j <? 0) then d
  else nth (Z.to_nat j) (nth (Z.to_nat i) a []) d.

(** The array whose sample at [(i, j)] is [f i j], for [i < h], [j < w]. *)
Definition tabulate {A : Type} (h w : nat) (f : Z -> Z -> A) : list (list A) :=
  map (fun i => map (fun j => f (Z.of_nat i) (Z.of_nat j)) (seq 0 w)) (seq 0 h).

(** Modelled from the spec: [np.zeros_like(a, dtype=np.float64)], "an
    all-zero array of matching shape". *)
Definition zeros_like (a : plane) : plane :=
  tabulate (rows a) (cols a) (fun _ _ => 0).

(** IEEE-754 rounding of a value of another precision (a cast). *)
Definition SFcast (prec emax : Z) (x : spec_float) : spec_float :=
  match x with
  | S754_finite s m e => binary_normalize prec emax (cond_Zopp s (Zpos m)) e s
  | _ => x
  end.

Definition float32_of_Z (z : Z) : spec_float := binary_normalize 24 128 z 0 false.

(** [a.astype(np.float32)] of an integer-valued float64 array: every
    sample is rounded to the nearest float32. *)
Definition astype_float32 (a : plane) : fplane := map (map float32_of_Z) a.

(** The C cast of a float to an integer: truncation toward zero. *)
Definition SFtrunc (x : spec_float) : Z :=
  match x with
  | S754_finite s m e =>
      cond_Zopp s (if 0 <=? e then Z.shiftl (Zpos m) e
                   else Z.quot (Zpos m) (Z.pow 2 (- e)))
  | _ => 0
  end.

(** [a.astype(np.uint8)] of a float32 array: truncation, then the low
    eight bits. *)
Definition astype_uint8 (a : fplane) : plane :=
  map (map (fun x => Z.modulo (SFtrunc x) 256)) a.

End np.

(** ** PIL *)
Module PIL.

(** An image in mode "RGB" or in mode "L". *)
Inductive Image : Type :=
| ImageRGB (px : raster3)
| ImageL (px : plane).

(** Modelled from the spec: [np.array(img.convert("RGB"))], the "fully
    decoded 3-channel raster in R,G,B channel order" of the image; a mode
    "L" sample is copied to the three channels. *)
Definition array_RGB (img : Image) : raster3 :=
  match img with
  | ImageRGB px => px
  | ImageL px => map (map (fun v => (v, v, v))) px
  end.

(** Modelled from the spec: [Image.fromarray(rgb)] of an H x W x 3 array,
    the image whose pixels are the array's. *)
Definition fromarray (rgb : raster3) : Image := ImageRGB rgb.

End PIL.

(** ** OpenCV *)
Module cv2.

(** *** Colour conversion *)

(** The first and the third channel of a pixel change places. *)
Definition swap_rb (p : pixel3) : pixel3 :=
  match p with
  | (c0, c1, c2) => (c2, c1, c0)
  end.

(** Modelled from the spec: [cv2.cvtColor(a, cv2.COLOR_RGB2BGR)] "reorders
    the 3 channels from (R,G,B) to (B,G,R) per pixel; shape unchanged". *)
Definition cvtColor_RGB2BGR (a : raster3) : raster3 := map (map swap_rb) a.

(** Modelled from the spec: [cv2.cvtColor(a, cv2.COLOR_BGR2RGB)] does
    "reorder (B,G,R) to (R,G,B)". *)
Definition cvtColor_BGR2RGB (a : raster3) : raster3 := map (map swap_rb) a.

(** Modelled from the spec: [COLOR_GRAY2RGB] "replicates it into 3
    identical channels (R=G=B=value)". *)
Definition cvtColor_GRAY2RGB (a : plane) : raster3 :=
  map (map (fun v => (v, v, v))) a.

(** The luma weights 0.114, 0.587 and 0.299 in 15-bit fixed point. *)
Definition BY15 : Z := 3735.
Definition GY15 : Z := 19235.
Definition RY15 : Z := 9798.

Definition luma (p : pixel3) : Z :=
  match p with
  | (b, g, r) => Z.shiftr (b * BY15 + g * GY15 + r * RY15 + 16384) 15
  end.

(** Modelled from the spec: [COLOR_BGR2GRAY], "a fixed luma-weighted
    combination of the three channels"; on 8-bit samples OpenCV computes
    it in fixed point and rounds. *)
Definition cvtColor_BGR2GRAY (a : raster3) : plane := map (map luma) a.

(** *** Borders *)

Inductive BorderType : Type :=
| BORDER_REPLICATE
| BORDER_REFLECT_101.

(** [borderInterpolate(p, len, borderType)]: the index inside [0, len) that
    stands for [p].  [BORDER_REFLECT_101] mirrors about the first and the
    last sample without repeating them (period [2 * (len - 1)]). *)
Definition borderInterpolate (p len : Z) (b : BorderType) : Z :=
  match b with
  | BORDER_REPLICATE => Z.max 0 (Z.min p (len - 1))
  | BORDER_REFLECT_101 =>
      if len <=? 1 then 0
      else
        let period := 2 * (len - 1) in
        let q := p mod period in
        if q <? len then q else period - q
  end.

(** The sample of [src] at [(i, j)], extended by the border rule. *)
Definition sample (b : BorderType) (src : plane) (i j : Z) : Z :=
  np.at2 0 src
    (borderInterpolate i (Z.of_nat (np.rows src)) b)
    (borderInterpolate j (Z.of_nat (np.cols src)) b).

(** *** Linear filters *)

(** [sum_k ker[k] * f (k - anchor)], the anchor being the kernel's centre. *)
Fixpoint dot_from (ker : list Z) (f : Z -> Z) (k : Z) : Z :=
  match ker with
  | [] => 0
  | c :: ker' => c * f k + dot_from ker' f (k + 1)
  end.

Definition dot (ker : list Z) (f : Z -> Z) : Z :=
  dot_from ker f (- (Z.of_nat (length ker) / 2)).

(** The row pass and the column pass of [sepFilter2D]. *)
Definition rowFilter (b : BorderType) (kx : list Z) (src : plane) : plane :=
  np.tabulate (np.rows src) (np.cols src)
    (fun i j => dot kx (fun d => sample b src i (j + d))).

Definition columnFilter (b : BorderType) (ky : list Z) (src : plane) : plane :=
  np.tabulate (np.rows src) (np.cols src)
    (fun i j => dot ky (fun d => sample b src (i + d) j)).

Definition sepFilter2D (b : BorderType) (kx ky : list Z) (src : plane) : plane :=
  columnFilter b ky (rowFilter b kx src).

(** [filter2D] with a square kernel given row by row. *)
Definition filter2D (b : BorderType) (ker : list (list Z)) (src : plane) : plane :=
  np.tabulate (np.rows src) (np.cols src)
    (fun i j =>
       dot (map (fun _ => 1) ker)
         (fun di =>
            dot (nth (Z.to_nat (di + Z.of_nat (length ker) / 2)) ker [])
              (fun dj => sample b src (i + di) (j + dj)))).

(** *** Derivative kernels *)

(** The coefficients of [p * (1 + x)] and of [p * (x - 1)]. *)
Definition smooth_step (p : list Z) : list Z :=
  map (fun ab => fst ab + snd ab) (combine (p ++ [0]) (0 :: p)).

Definition deriv_step (p : list Z) : list Z :=
  map (fun ab => fst ab - snd ab) (combine (0 :: p) (p ++ [0])).

(** The Sobel kernel of [ksize] taps and derivative order [order]:
    [(1 + x)^(ksize - order - 1) * (x - 1)^order]. *)
Definition sobel_kernel (ksize order : nat) : list Z :=
  Nat.iter order deriv_step (Nat.iter (ksize - order - 1) smooth_step [1]).

Definition scharr_kernel (order : nat) : list Z :=
  match order with
  | O => [3; 10; 3]
  | _ => [-1; 0; 1]
  end.

(** [getDerivKernels(dx, dy, ksize)], the kernels of [cv2.Sobel].  A size
    below 1 selects the Scharr kernels.  Otherwise OpenCV requires an odd
    size of at most 31 and raises [cv2.error] on any other ("The kernel
    size must be odd and not larger than 31"); size 1 becomes 3 along a
    derived axis. *)
Definition getDerivKernels (dx dy : nat) (ksize : Z) : option (list Z * list Z) :=
  if ksize <=? 0 then Some (scharr_kernel dx, scharr_kernel dy)
  else if Z.even ksize || (31 <? ksize) then None
  else
    let n := Z.to_nat ksize in
    let nx := if (n =? 1)%nat && (0 <? dx)%nat then 3%nat else n in
    let ny := if (n =? 1)%nat && (0 <? dy)%nat then 3%nat else n in
    Some (sobel_kernel nx dx, sobel_kernel ny dy).

(** Modelled from the spec: [cv2.Sobel(src, cv2.CV_64F, dx, dy,
    ksize=ksize)], the gradient along one axis "as a floating-point
    precision single-channel array of the same spatial size as input".
    The border is OpenCV's default; [None] is [cv2.error].  The samples
    are the integer sums of the products, as OpenCV's double-precision
    sums are while they stay below 2^53. *)
Definition Sobel (src : plane) (dx dy : nat) (ksize : Z) : option plane :=
  match getDerivKernels dx dy ksize with
  | Some (kx, ky) => Some (sepFilter2D BORDER_REFLECT_101 kx ky src)
  | None => None
  end.

(** The fixed 3 x 3 Laplacian kernels of sizes 1 and 3. *)
Definition laplacian_kernel (ksize : Z) : list (list Z) :=
  if ksize =? 1 then [[0; 1; 0]; [1; -4; 1]; [0; 1; 0]]
  else [[2; 0; 2]; [0; -8; 0]; [2; 0; 2]].

Definition add_planes (a b : plane) : plane :=
  map (fun rs => map (fun xy => fst xy + snd xy) (combine (fst rs) (snd rs)))
      (combine a b).

(** *** The build *)

(** What OpenCV decides per build and processor (of the x86-64 family,
    whose conversion instructions the model follows), and no argument of
    a call fixes.
    - [vector_loop h w]: whether the conversion to 8 bits of an array of
      [h] rows and [w] columns runs in the vectorised loop.  That loop
      takes a whole vector of samples at a time, so an array with fewer
      samples than a vector holds is left to the scalar loop; how many a
      vector holds is the processor's.
    - [laplacian_f32 src ksize i j]: the sample at [(i, j)] of the
      Laplacian of an 8-bit [src] for a kernel size above 5.  OpenCV then
      keeps the kernel taps and the two filtered planes in float32, so a
      sample is the sum of the products as float32 rounds it step by
      step; the vector width and the use of fused multiply-add decide the
      steps.  The rounded value is an integer. *)
Record build : Type := {
  vector_loop : nat -> nat -> bool;
  laplacian_f32 : plane -> Z -> Z -> Z -> Z
}.

(** Modelled from the spec: [cv2.Laplacian(src, cv2.CV_64F, ksize=ksize)],
    "the discrete Laplacian operator at floating-point precision".  OpenCV
    takes a fixed 3 x 3 kernel for sizes 1 and 3 and the sum of the two
    second derivatives for larger odd sizes up to 31; any other size is
    [cv2.error], here [None].  For an 8-bit source the sum is computed in
    integers up to size 5, where it is exact, and in float32 above, where
    it is what the build makes of it. *)
Definition Laplacian (b : build) (src : plane) (ksize : Z) : option plane :=
  if (ksize =? 1) || (ksize =? 3) then
    Some (filter2D BORDER_REFLECT_101 (laplacian_kernel ksize) src)
  else if (ksize <=? 0) || Z.even ksize || (31 <? ksize) then None
  else if ksize <=? 5 then
    let n := Z.to_nat ksize in
    let kd := sobel_kernel n 2 in
    let ks := sobel_kernel n 0 in
    Some (add_planes (sepFilter2D BORDER_REFLECT_101 kd ks src)
                     (sepFilter2D BORDER_REFLECT_101 ks kd src))
  else
    Some (np.tabulate (np.rows src) (np.cols src) (laplacian_f32 b src ksize)).

(** *** Conversion to 8 bits *)

(** [saturate_cast<uchar>] of an [int]. *)
Definition saturate_u8 (v : Z) : Z := Z.max 0 (Z.min v 255).

(** One sample of [convertScaleAbs] on a [CV_64F] array:
    [saturate_cast<uchar>(abs(v))].  The magnitude is first rounded to a
    32-bit [int], and only that [int] is saturated.  A magnitude of 2^31
    or more has no [int]: the conversion instruction of x86-64 answers
    [INT_MIN], whose saturation is 0, not 255.  The vectorised loop takes
    the sample
    through float32 before, where a magnitude from 2^31 - 64 on is already
    rounded to 2^31; the scalar loop converts the double itself.  The
    samples are integers, so nothing else is left to round. *)
Definition abs_to_u8 (vectorised : bool) (v : Z) : Z :=
  let a := Z.abs v in
  if 2 ^ 31 <=? a then 0
  else if a <? 2 ^ 31 - 64 then saturate_u8 a
  else if vectorised then 0
  else saturate_u8 a.

(** [cv2.convertScaleAbs(src)] of a [CV_64F] array, with the default scale
    1 and shift 0: every sample is converted by [abs_to_u8], all of them
    in the same loop.  The spec has it "take the absolute value ... and
    clamp/round to [0,255] (no rescaling)", which is what happens below
    2^31 - 64. *)
Definition convertScaleAbs (b : build) (src : plane) : plane :=
  map (map (abs_to_u8 (vector_loop b (np.rows src) (np.cols src)))) src.

(** *** Magnitude and min-max normalization (float32) *)

Definition f32_mul : spec_float -> spec_float -> spec_float := SFmul 24 128.
Definition f32_add : spec_float -> spec_float -> spec_float := SFadd 24 128.
Definition f32_sub : spec_float -> spec_float -> spec_float := SFsub 24 128.
Definition f32_sqrt : spec_float -> spec_float := SFsqrt 24 128.
Definition f64_mul : spec_float -> spec_float -> spec_float := SFmul 53 1024.
Definition f64_sub : spec_float -> spec_float -> spec_float := SFsub 53 1024.
Definition f64_div : spec_float -> spec_float -> spec_float := SFdiv 53 1024.
Definition to_f32 : spec_float -> spec_float := np.SFcast 24 128.
Definition to_f64 : spec_float -> spec_float := np.SFcast 53 1024.
Definition f64_of_Z (z : Z) : spec_float := binary_normalize 53 1024 z 0 false.

Definition magnitude1 (x y : spec_float) : spec_float :=
  f32_sqrt (f32_add (f32_mul x x) (f32_mul y y)).

(** Modelled from the spec: [cv2.magnitude(x, y)], the "Euclidean
    magnitude per pixel (sqrt(gx^2 + gy^2))", in float32. *)
Definition magnitude (x y : fplane) : fplane :=
  map (fun rs => map (fun xy => magnitude1 (fst xy) (snd xy))
                     (combine (fst rs) (snd rs)))
      (combine x y).

(** [minMaxIdx]: the least and the greatest sample, as doubles. *)
Definition fmin (a b : spec_float) : spec_float := if SFltb b a then b else a.
Definition fmax (a b : spec_float) : spec_float := if SFltb a b then b else a.

Definition minMaxIdx (src : fplane) : spec_float * spec_float :=
  match concat src with
  | [] => (S754_zero false, S754_zero false)
  | v :: vs => (to_f64 (fold_left fmin vs v), to_f64 (fold_left fmax vs v))
  end.

(** [DBL_EPSILON], 2^-52. *)
Definition DBL_EPSILON : spec_float := binary_normalize 53 1024 1 (-52) false.

(** The scale and the shift of [NORM_MINMAX] onto [[a, b]] for a float32
    result: the scale is 0 when the value range is empty. *)
Definition minmax_scale_shift (a b : Z) (src : fplane) : spec_float * spec_float :=
  let '(smin, smax) := minMaxIdx src in
  let dmin := f64_of_Z (Z.min a b) in
  let dmax := f64_of_Z (Z.max a b) in
  let range := f64_sub smax smin in
  let scale :=
    f64_mul (f64_sub dmax dmin)
            (if SFltb DBL_EPSILON range then f64_div (f64_of_Z 1) range
             else S754_zero false) in
  let scale := to_f64 (to_f32 scale) in
  let shift := to_f64 (f32_sub (to_f32 dmin) (to_f32 (f64_mul smin scale))) in
  (scale, shift).

(** Modelled from the spec: [cv2.normalize(src, None, a, b,
    cv2.NORM_MINMAX)] of a float32 array, which does "linearly rescale the
    full magnitude range present in the image": every sample becomes
    [src * scale + shift], in float32. *)
Definition normalize_MINMAX (src : fplane) (a b : Z) : fplane :=
  let '(scale, shift) := minmax_scale_shift a b src in
  map (map (fun v => f32_add (f32_mul v (to_f32 scale)) (to_f32 shift))) src.

(** *** Gaussian blur *)

Section Gaussian.

(** [getGaussianKernel ksize sigma]: the weights of the 1-D Gaussian of the
    requested size (or, for a size below 1, of the size that [sigma]
    implies) in fixed point with 8 fractional bits.  They are values of
    the exponential function and are left open. *)
Variable getGaussianKernel : Z -> spec_float -> list Z.

(** Modelled from the spec: [cv2.GaussianBlur(src, (kw, kh), sigmaX=sigmaX,
    sigmaY=sigmaY)], "a separable Gaussian blur", on 8-bit samples.  A
    1 x 1 kernel copies the source; a non-positive [sigmaY] takes
    [sigmaX]. *)
Definition GaussianBlur (src : plane) (ksize : Z * Z)
    (sigmaX sigmaY : spec_float) : plane :=
  if (fst ksize =? 1) && (snd ksize =? 1) then src
  else
    let sigmaY := if SFleb sigmaY (S754_zero false) then sigmaX else sigmaY in
    let kx := getGaussianKernel (fst ksize) sigmaX in
    let ky := getGaussianKernel (snd ksize) sigmaY in
    map (map (fun v => saturate_u8 (Z.shiftr (v + 32768) 16)))
        (sepFilter2D BORDER_REFLECT_101 kx ky src).

End Gaussian.

(** *** Canny *)

Definition TG22 : Z := 13573.

(** The label of pixel [(i, j)] after non-maximum suppression: 2 for a
    strong edge, 0 for a candidate that hysteresis may still accept, 1 for
    no edge.  The gradient norm is [|dx| + |dy|], zero outside the image. *)
Definition nms (low high : Z) (dx dy : plane) (i j : Z) : Z :=
  let mag := fun a b => Z.abs (np.at2 0 dx a b) + Z.abs (np.at2 0 dy a b) in
  let m := mag i j in
  let xs := np.at2 0 dx i j in
  let ys := np.at2 0 dy i j in
  let x := Z.abs xs in
  let y := Z.shiftl (Z.abs ys) 15 in
  let tg22x := x * TG22 in
  let is_max :=
    if y <? tg22x then (mag i (j - 1) <? m) && (mag i (j + 1) <=? m)
    else if tg22x + Z.shiftl x 16 <? y then
      (mag (i - 1) j <? m) && (mag (i + 1) j <=? m)
    else
      let s := if Z.lxor xs ys <? 0 then -1 else 1 in
      (mag (i - 1) (j - s) <? m) && (mag (i + 1) (j + s) <? m) in
  if (low <? m) && is_max then (if high <? m then 2 else 0) else 1.

Definition neighbours8 : list (Z * Z) :=
  [(-1, -1); (-1, 0); (-1, 1); (0, -1); (0, 1); (1, -1); (1, 0); (1, 1)].

(** One round of hysteresis: a candidate next to an edge becomes an edge.
    Outside the image the label is 1. *)
Definition grow_at (labels : plane) (i j : Z) : Z :=
  let v := np.at2 1 labels i j in
  if (v =? 0) &&
     existsb (fun d => np.at2 1 labels (i + fst d) (j + snd d) =? 2) neighbours8
  then 2 else v.

Definition grow (labels : plane) : plane :=
  np.tabulate (np.rows labels) (np.cols labels) (grow_at labels).

(** Hysteresis to its fixed point: a round per pixel is enough
    ([hysteresis_fixed_point] below). *)
Definition hysteresis (labels : plane) : plane :=
  Nat.iter (np.rows labels * np.cols labels) grow labels.

(** Modelled from the spec: [cv2.Canny(image, threshold1, threshold2)],
    "the canonical Canny algorithm: compute gradients, non-maximum
    suppression, hysteresis thresholding", with "edge pixels at maximum
    intensity, non-edges at zero".  As in OpenCV the gradients are 3 x 3
    Sobel gradients with replicated border, and the thresholds change
    places when the first is the greater. *)
Definition Canny (image : plane) (threshold1 threshold2 : Z) : plane :=
  let low := Z.min threshold1 threshold2 in
  let high := Z.max threshold1 threshold2 in
  let dx := sepFilter2D BORDER_REPLICATE [-1; 0; 1] [1; 2; 1] image in
  let dy := sepFilter2D BORDER_REPLICATE [1; 2; 1] [-1; 0; 1] image in
  let labels := np.tabulate (np.rows image) (np.cols image) (nms low high dx dy) in
  map (map (fun v => if v =? 2 then 255 else 0)) (hysteresis labels).

End cv2.

(** ** Python strings *)

(** Direction names are ASCII; a character that is no ASCII letter has no
    other case here. *)
Module str.

Definition is_lower (c : ascii) : bool :=
  (97 <=? nat_of_ascii c)%nat && (nat_of_ascii c <=? 122)%nat.

Definition is_upper (c : ascii) : bool :=
  (65 <=? nat_of_ascii c)%nat && (nat_of_ascii c <=? 90)%nat.

Definition upper_char (c : ascii) : ascii :=
  if is_lower c then ascii_of_nat (nat_of_ascii c - 32) else c.

Definition lower_char (c : ascii) : ascii :=
  if is_upper c then ascii_of_nat (nat_of_ascii c + 32) else c.

(** [s.lower()]. *)
Fixpoint lower (s : string) : string :=
  match s with
  | EmptyString => EmptyString
  | String c s' => String (lower_char c) (lower s')
  end.

(** [s.capitalize()]: the first character in upper case, the rest in
    lower case. *)
Definition capitalize (s : string) : string :=
  match s with
  | EmptyString => EmptyString
  | String c s' => String (upper_char c) (lower s')
  end.

(** [s or default] for an optional string: [None] and the empty string
    are falsy. *)
Definition or_default (s : option string) (default : string) : string :=
  match s with
  | None => default
  | Some EmptyString => default
  | Some s' => s'
  end.

End str.

(** ** processors/edges.py *)
Module edges.

(** [cv2.error] raised by a library call ends the function: [None]. *)
Definition bind {A B : Type} (x : option A) (f : A -> option B) : option B :=
  match x with
  | Some a => f a
  | None => None
  end.

Notation "x <- e ;; k" := (bind e (fun x => k))
  (at level 61, e at next level, right associativity).

(** [v = int(v); return v if v % 2 == 1 else v + 1].  On an [int],
    [int(v)] is [v]. *)
Definition _odd (v : Z) : Z :=
  if v mod 2 =? 1 then v else v + 1.

Section Pipeline.

Variable getGaussianKernel : Z -> spec_float -> list Z.

(** [k = _odd(ksize)];
    [return cv2.GaussianBlur(gray, (k, k), sigmaX=float(sigma), sigmaY=float(sigma))]. *)
Definition _gaussian_blur (gray : plane) (ksize : Z) (sigma : spec_float) : plane :=
  let k := _odd ksize in
  cv2.GaussianBlur getGaussianKernel gray (k, k) sigma sigma.

(** Grayscale; [if ksize > 1 or sigma > 0: gray = _gaussian_blur(gray,
    ksize, sigma)]; [edges = cv2.Canny(gray, threshold1=int(low),
    threshold2=int(high))]; [return edges]. *)
Definition run_canny (img_bgr : raster3) (low high ksize : Z)
    (sigma : spec_float) : plane :=
  let gray := cv2.cvtColor_BGR2GRAY img_bgr in
  let gray :=
    if (1 <? ksize) || SFltb (S754_zero false) sigma
    then _gaussian_blur gray ksize sigma
    else gray in
  let edges := cv2.Canny gray low high in
  edges.

End Pipeline.

Section Gradients.

(** The OpenCV build that runs the two gradient filters. *)
Variable cv : cv2.build.

(** [direction] is a string or [None].  The statements are the source's,
    in its order: the two gradients are computed (or set to zero arrays)
    before the test [direction == "Both"]. *)
Definition run_sobel (img_bgr : raster3) (ksize : Z)
    (direction : option string) : option plane :=
  let gray := cv2.cvtColor_BGR2GRAY img_bgr in
  let k := _odd ksize in
  let direction := str.capitalize (str.or_default direction "Both") in
  let dx := String.eqb direction "X" || String.eqb direction "Both" in
  let dy := String.eqb direction "Y" || String.eqb direction "Both" in
  gx <- (if dx then cv2.Sobel gray 1 0 k else Some (np.zeros_like gray)) ;;
  gy <- (if dy then cv2.Sobel gray 0 1 k else Some (np.zeros_like gray)) ;;
  if String.eqb direction "Both" then
    let mag := cv2.magnitude (np.astype_float32 gx) (np.astype_float32 gy) in
    let mag := cv2.normalize_MINMAX mag 0 255 in
    Some (np.astype_uint8 mag)
  else
    let single := if dx then gx else gy in
    Some (cv2.convertScaleAbs cv single).

(** [lap = cv2.Laplacian(gray, cv2.CV_64F, ksize=k)];
    [return cv2.convertScaleAbs(lap)]. *)
Definition run_laplacian (img_bgr : raster3) (ksize : Z) : option plane :=
  let gray := cv2.cvtColor_BGR2GRAY img_bgr in
  let k := _odd ksize in
  lap <- cv2.Laplacian cv gray k ;;
  Some (cv2.convertScaleAbs cv lap).

End Gradients.

End edges.

(** ** utils/image_io.py *)
Module image_io.

(** [arr = np.array(img_pil.convert("RGB"))];
    [return cv2.cvtColor(arr, cv2.COLOR_RGB2BGR)]. *)
Definition pil_to_cv2 (img_pil : PIL.Image) : ndarray :=
  let arr := PIL.array_RGB img_pil in
  Arr3 (cv2.cvtColor_RGB2BGR arr).

(** [if img_cv.ndim == 2: rgb = cv2.cvtColor(img_cv, cv2.COLOR_GRAY2RGB)],
    [else: rgb = cv2.cvtColor(img_cv, cv2.COLOR_BGR2RGB)];
    [return Image.fromarray(rgb)].  [ndim == 2] is the [Arr2] case. *)
Definition cv2_to_pil (img_cv : ndarray) : PIL.Image :=
  let rgb :=
    match img_cv with
    | Arr2 g => cv2.cvtColor_GRAY2RGB g
    | Arr3 c => cv2.cvtColor_BGR2RGB c
    end in
  PIL.fromarray rgb.

End image_io.

(** ** app.py *)

(** The script of the page, from the upload to the download image.  What
    the user has set comes in as the values of the widgets; what the page
    shows goes out as a record.  A run ends with that record or with the
    exception that a dictionary lookup or an OpenCV call raises. *)
Module app.

Inductive result (A : Type) : Type :=
| Ok (a : A)
| KeyError (key : string)
| cv2_error.

Arguments Ok {A} a.
Arguments KeyError {A} key.
Arguments cv2_error {A}.

Definition bind {A B : Type} (x : result A) (f : A -> result B) : result B :=
  match x with
  | Ok a => f a
  | KeyError key => KeyError key
  | cv2_error => cv2_error
  end.

Notation "x <-- e ;; k" := (bind e (fun x => k))
  (at level 61, e at next level, right associativity).

(** A filter that returns no raster has raised [cv2.error]. *)
Definition of_option {A : Type} (x : option A) : result A :=
  match x with
  | Some a => Ok a
  | None => cv2_error
  end.

(** The widgets, by label: [st.sidebar.radio], the integer and the float
    [st.sidebar.slider], [st.sidebar.selectbox]. *)
Record widgets : Type := {
  radio : string -> string;
  slider : string -> Z;
  slider_float : string -> spec_float;
  selectbox : string -> string
}.

(** The dictionary [params].  Its keys are the five the script writes; a
    key that has not been assigned is [None]. *)
Record dict : Type := {
  d_ksize : option Z;
  d_sigma : option spec_float;
  d_low : option Z;
  d_high : option Z;
  d_direction : option string
}.

(** [params = {}]. *)
Definition empty : dict :=
  {| d_ksize := None; d_sigma := None; d_low := None; d_high := None;
     d_direction := None |}.

(** [params[key] = v], key by key. *)
Definition set_ksize (p : dict) (v : Z) : dict :=
  {| d_ksize := Some v; d_sigma := d_sigma p; d_low := d_low p;
     d_high := d_high p; d_direction := d_direction p |}.

Definition set_sigma (p : dict) (v : spec_float) : dict :=
  {| d_ksize := d_ksize p; d_sigma := Some v; d_low := d_low p;
     d_high := d_high p; d_direction := d_direction p |}.

Definition set_low (p : dict) (v : Z) : dict :=
  {| d_ksize := d_ksize p; d_sigma := d_sigma p; d_low := Some v;
     d_high := d_high p; d_direction := d_direction p |}.

Definition set_high (p : dict) (v : Z) : dict :=
  {| d_ksize := d_ksize p; d_sigma := d_sigma p; d_low := d_low p;
     d_high := Some v; d_direction := d_direction p |}.

Definition set_direction (p : dict) (v : string) : dict :=
  {| d_ksize := d_ksize p; d_sigma := d_sigma p; d_low := d_low p;
     d_high := d_high p; d_direction := Some v |}.

(** [params[key]]: [KeyError] on a key that has not been assigned. *)
Definition lookup {A : Type} (field : option A) (key : string) : result A :=
  match field with
  | Some v => Ok v
  | None => KeyError key
  end.

(** [Image.open(uploaded).convert("RGB")]. *)
Definition convert_RGB (img : PIL.Image) : PIL.Image :=
  PIL.ImageRGB (PIL.array_RGB img).

(** The sidebar: [algo = st.sidebar.radio(...)], [params = {}], and the
    sliders of the chosen algorithm, each written under its key. *)
Definition controls (ui : widgets) : string * dict :=
  let algo := radio ui "Edge Detection Algorithm" in
  let params := empty in
  if String.eqb algo "Canny" then
    let params := set_ksize params (slider ui "Gaussian kernel size") in
    let params := set_sigma params (slider_float ui "Gaussian sigma") in
    let params := set_low params (slider ui "Lower threshold") in
    let params := set_high params (slider ui "Upper threshold") in
    (algo, params)
  else if String.eqb algo "Sobel" then
    let params := set_ksize params (slider ui "Kernel size") in
    let params := set_direction params (selectbox ui "Gradient direction") in
    (algo, params)
  else
    let params := set_ksize params (slider ui "Kernel size") in
    (algo, params).

Section Script.

Variable getGaussianKernel : Z -> spec_float -> list Z.

Variable cv : cv2.build.

(** The filters start with [cv2.cvtColor(img_bgr, cv2.COLOR_BGR2GRAY)],
    which raises on an array that has no channel axis. *)
Definition on_bgr (bgr : ndarray) (f : raster3 -> result plane) : result plane :=
  match bgr with
  | Arr3 c => f c
  | Arr2 _ => cv2_error
  end.

(** The recompute: the keyword arguments are read from [params] in the
    order they are written, then the one filter runs. *)
Definition process (algo : string) (params : dict) (bgr : ndarray) : result plane :=
  if String.eqb algo "Canny" then
    low <-- lookup (d_low params) "low" ;;
    high <-- lookup (d_high params) "high" ;;
    ksize <-- lookup (d_ksize params) "ksize" ;;
    sigma <-- lookup (d_sigma params) "sigma" ;;
    on_bgr bgr (fun c => Ok (edges.run_canny getGaussianKernel c low high ksize sigma))
  else if String.eqb algo "Sobel" then
    ksize <-- lookup (d_ksize params) "ksize" ;;
    direction <-- lookup (d_direction params) "direction" ;;
    on_bgr bgr (fun c => of_option (edges.run_sobel cv c ksize (Some direction)))
  else
    ksize <-- lookup (d_ksize params) "ksize" ;;
    on_bgr bgr (fun c => of_option (edges.run_laplacian cv c ksize)).

(** What the page shows: the input image, the output raster, and the
    image behind the download button. *)
Record page : Type := {
  shown_input : PIL.Image;
  shown_output : plane;
  download : PIL.Image
}.

(** One run of the script.  Without an upload the script stops
    ([st.stop()]) and shows nothing. *)
Definition script (ui : widgets) (uploaded : option PIL.Image) : result (option page) :=
  match uploaded with
  | None => Ok None
  | Some img =>
      let pil_img := convert_RGB img in
      let bgr := image_io.pil_to_cv2 pil_img in
      let '(algo, params) := controls ui in
      out <-- process algo params bgr ;;
      let out_pil := image_io.cv2_to_pil (Arr2 out) in
      Ok (Some {| shown_input := pil_img; shown_output := out; download := out_pil |})
  end.

End Script.

End app.

(** ** Vocabulary of the specification *)

(** [a] has [h] rows of [w] samples each. *)
Definition has_shape {A : Type} (h w : nat) (a : list (list A)) : Prop :=
  length a = h /\ Forall (fun r => length r = w) a.

(** Every sample of [a] satisfies [P]. *)
Definition all_pixels {A : Type} (P : A -> Prop) (a : list (list A)) : Prop :=
  Forall (Forall P) a.

(** The raster of [h] rows and [w] columns whose samples all are [c]. *)
Definition uniform {A : Type} (c : A) (h w : nat) : list (list A) :=
  repeat (repeat c w) h.

Definition binary_sample (p : Z) : Prop := p = 0 \/ p = 255.

Definition in_u8 (p : Z) : Prop := 0 <= p <= 255.

(** Two direction strings that differ in letter case only. *)
Definition case_variant (s t : string) : Prop := str.lower s = str.lower t.

(** The condition under which [run_canny] blurs: [ksize > 1 or sigma > 0]. *)
Definition blur_requested (ksize : Z) (sigma : spec_float) : Prop :=
  1 < ksize \/ SFltb (S754_zero false) sigma = true.

(** The sum of the taps of a kernel. *)
Definition sumZ (l : list Z) : Z := fold_right Z.add 0 l.

(** Positive zero, in either precision. *)
Definition fzero : spec_float := S754_zero false.

(** The positions of an [h] x [w] array, and how many of them still carry
    the label 0 (a candidate edge that hysteresis has not decided). *)
Definition positions (h w : nat) : list (nat * nat) :=
  list_prod (seq 0 h) (seq 0 w).

Definition is_candidate (labels : plane) (ij : nat * nat) : bool :=
  np.at2 1 labels (Z.of_nat (fst ij)) (Z.of_nat (snd ij)) =? 0.

Definition candidates (h w : nat) (labels : plane) : nat :=
  length (filter (is_candidate labels) (positions h w)).

(** A value that [st.sidebar.slider(label, lo, hi, default, step=step)]
    can return: on the grid of [step] from [lo], not beyond [hi]. *)
Definition slider_value (lo hi step v : Z) : Prop :=
  lo <= v <= hi /\ (v - lo) mod step = 0.

(** The widgets hold values that the page lets the user set. *)
Definition ui_ok (ui : app.widgets) : Prop :=
  In (app.radio ui "Edge Detection Algorithm") ["Canny"; "Sobel"; "Laplacian"]%string /\
  slider_value 1 15 2 (app.slider ui "Gaussian kernel size") /\
  slider_value 0 255 1 (app.slider ui "Lower threshold") /\
  slider_value 0 255 1 (app.slider ui "Upper threshold") /\
  slider_value 1 15 2 (app.slider ui "Kernel size") /\
  In (app.selectbox ui "Gradient direction") ["X"; "Y"; "Both"]%string.

(** The direction, as [run_sobel] normalizes it, names a gradient. *)
Definition recognized (direction : option string) : Prop :=
  In (str.capitalize (str.or_default direction "Both")) ["X"; "Y"; "Both"]%string.

(** Every pixel of the image has three equal channels, those of [g]. *)
Definition gray_image (g : plane) : PIL.Image :=
  PIL.ImageRGB (map (map (fun v => (v, v, v))) g).

(** Widgets as the page first shows them for a chosen algorithm and
    direction: every slider at its default. *)
Definition default_ui (algo direction : string) : app.widgets :=
  {| app.radio := fun _ => algo;
     app.slider := fun label =>
       if String.eqb label "Gaussian kernel size" then 5
       else if String.eqb label "Lower threshold" then 100
       else if String.eqb label "Upper threshold" then 200
       else 3;
     app.slider_float := fun _ => cv2.f64_of_Z 1;
     app.selectbox := fun _ => direction |}.

(** The 8-bit sample [o] stored for the gradient sample [v]: the
    absolute value saturated at 255 when the magnitude is below 2^31 - 64,
    and 0 when it is 2^31 or more.  In between the build decides, within
    the 8-bit range. *)
Definition converted (v o : Z) : Prop :=
  0 <= o <= 255 /\
  (Z.abs v < 2 ^ 31 - 64 -> o = Z.min (Z.abs v) 255) /\
  (2 ^ 31 <= Z.abs v -> o = 0).






(** *** Sample inputs *)

(** The 3-tap binomial weights 1/4, 1/2, 1/4 with 8 fractional bits, for
    every size and sigma: a stand-in for the Gaussian weights. *)
Definition binomial_kernel : Z -> spec_float -> list Z := fun _ _ => [64; 128; 64].

(** A build whose vectors hold 16 samples.  Its float32 Laplacian is a
    stand-in that no statement below reads. *)
Definition sample_build : cv2.build :=
  {| cv2.vector_loop := fun h w => (16 <=? h * w)%nat;
     cv2.laplacian_f32 := fun _ _ _ _ => 0 |}.

Definition sigma_1_0 : spec_float := cv2.f64_of_Z 1.

Definition black : pixel3 := (0, 0, 0).
Definition white : pixel3 := (255, 255, 255).

(** Three rows, each black, black, white: a vertical step edge. *)
Definition step_edge : raster3 := repeat [black; black; white] 3.

(** 2 x 2, the top left pixel white and the rest black. *)
Definition corner : raster3 := [[white; black]; [black; black]].


(** ** Lists and arrays *)

Lemma tabulate_rows {A : Type} (h w : nat) (f : Z -> Z -> A) :
  np.rows (np.tabulate h w f) = h.
Proof.
  unfold np.rows, np.tabulate. now rewrite length_map, length_seq.
Qed.

Lemma tabulate_has_shape {A : Type} (h w : nat) (f : Z -> Z -> A) :
  has_shape h w (np.tabulate h w f).
Proof.
  split.
  - apply tabulate_rows.
  - unfold np.tabulate. apply Forall_forall. intros r Hr.
    apply in_map_iff in Hr. destruct Hr as [i [<- _]].
    now rewrite length_map, length_seq.
Qed.

Lemma has_shape_cols {A : Type} (h w : nat) (a : list (list A)) :
  has_shape h w a -> h <> O -> np.cols a = w.
Proof.
  intros [Hlen Hall] Hh. destruct a as [|r a]; simpl in *.
  - congruence.
  - now inversion Hall.
Qed.

(** An array tabulated over the shape of [a] has the shape of [a]. *)
Lemma tabulate_like {A B : Type} (h w : nat) (a : list (list A)) (f : Z -> Z -> B) :
  has_shape h w a -> has_shape h w (np.tabulate (np.rows a) (np.cols a) f).
Proof.
  intros Ha. destruct h as [|h].
  - destruct Ha as [Hlen _]. unfold np.rows. rewrite Hlen. split; [reflexivity|constructor].
  - rewrite (has_shape_cols (S h) w a Ha) by discriminate.
    destruct Ha as [Hlen _]. unfold np.rows. rewrite Hlen. apply tabulate_has_shape.
Qed.

Lemma map_map_has_shape {A B : Type} (h w : nat) (f : A -> B) (a : list (list A)) :
  has_shape h w a -> has_shape h w (map (map f) a).
Proof.
  intros [Hlen Hall]. split.
  - now rewrite length_map.
  - apply Forall_map. eapply Forall_impl; [|exact Hall].
    intros r Hr. now rewrite length_map.
Qed.

Lemma zip_has_shape {A B C : Type} (h w : nat) (f : A * B -> C)
    (a : list (list A)) (b : list (list B)) :
  has_shape h w a -> has_shape h w b ->
  has_shape h w (map (fun rs => map f (combine (fst rs) (snd rs))) (combine a b)).
Proof.
  intros [Ha Fa] [Hb Fb]. split.
  - rewrite length_map, length_combine. lia.
  - apply Forall_forall. intros r Hr. apply in_map_iff in Hr.
    destruct Hr as [[ra rb] [<- Hin]]. simpl.
    rewrite length_map, length_combine.
    pose proof (in_combine_l _ _ _ _ Hin) as Hl.
    pose proof (in_combine_r _ _ _ _ Hin) as Hr.
    rewrite Forall_forall in Fa, Fb.
    rewrite (Fa _ Hl), (Fb _ Hr). lia.
Qed.

Lemma tabulate_const {A : Type} (h w : nat) (c : A) :
  np.tabulate h w (fun _ _ => c) = uniform c h w.
Proof.
  unfold np.tabulate, uniform.
  assert (Hrow : forall n s, map (fun _ : nat => c) (seq s n) = repeat c n).
  { induction n as [|n IH]; intros s; simpl; [reflexivity|]. now rewrite IH. }
  rewrite Hrow.
  generalize 0%nat at 1. induction h as [|h IH]; intros s; simpl; [reflexivity|].
  now rewrite IH.
Qed.

Lemma tabulate_ext {A : Type} (h w : nat) (f g : Z -> Z -> A) :
  (forall i j, f i j = g i j) -> np.tabulate h w f = np.tabulate h w g.
Proof.
  intros E. unfold np.tabulate. apply map_ext. intros i. apply map_ext.
  intros j. apply E.
Qed.

Lemma uniform_rows {A : Type} (c : A) (h w : nat) : np.rows (uniform c h w) = h.
Proof. unfold np.rows, uniform. apply repeat_length. Qed.

Lemma uniform_cols {A : Type} (c : A) (h w : nat) :
  h <> O -> np.cols (uniform c h w) = w.
Proof.
  intros Hh. destruct h as [|h]; [congruence|].
  unfold np.cols, uniform. simpl. apply repeat_length.
Qed.

Lemma map_map_uniform {A B : Type} (f : A -> B) (c : A) (h w : nat) :
  map (map f) (uniform c h w) = uniform (f c) h w.
Proof. unfold uniform. now rewrite !map_repeat. Qed.

Lemma combine_repeat {A B : Type} (a : A) (b : B) (n : nat) :
  combine (repeat a n) (repeat b n) = repeat (a, b) n.
Proof. induction n as [|n IH]; simpl; [reflexivity|]. now rewrite IH. Qed.

Lemma zip_uniform {A B C : Type} (f : A * B -> C) (a : A) (b : B) (h w : nat) :
  map (fun rs => map f (combine (fst rs) (snd rs)))
      (combine (uniform a h w) (uniform b h w)) = uniform (f (a, b)) h w.
Proof.
  unfold uniform. rewrite combine_repeat, map_repeat. simpl.
  now rewrite combine_repeat, map_repeat.
Qed.

Lemma nth_repeat_lt {A : Type} (c d : A) (n k : nat) :
  (k < n)%nat -> nth k (repeat c n) d = c.
Proof.
  revert k. induction n as [|n IH]; intros k Hk; [lia|].
  destruct k as [|k]; simpl; [reflexivity|]. apply IH. lia.
Qed.

Lemma at2_uniform {A : Type} (c d : A) (h w : nat) (i j : Z) :
  0 <= i < Z.of_nat h -> 0 <= j < Z.of_nat w ->
  np.at2 d (uniform c h w) i j = c.
Proof.
  intros Hi Hj. unfold np.at2, uniform.
  replace (i <? 0) with false by (symmetry; apply Z.ltb_ge; lia).
  replace (j <? 0) with false by (symmetry; apply Z.ltb_ge; lia).
  simpl. rewrite (nth_repeat_lt (repeat c w) [] h) by lia.
  apply nth_repeat_lt. lia.
Qed.

(** ** Borders and filters *)

Lemma borderInterpolate_range (p len : Z) (b : cv2.BorderType) :
  0 < len -> 0 <= cv2.borderInterpolate p len b < len.
Proof.
  intros Hlen. unfold cv2.borderInterpolate. destruct b.
  - lia.
  - destruct (len <=? 1) eqn:E1; [lia|]. apply Z.leb_gt in E1.
    pose proof (Z.mod_pos_bound p (2 * (len - 1)) ltac:(lia)) as Hq.
    destruct (p mod (2 * (len - 1)) <? len) eqn:E2.
    + apply Z.ltb_lt in E2. lia.
    + apply Z.ltb_ge in E2. lia.
Qed.

(** Whatever the border rule, a uniform raster extends to a uniform plane. *)
Lemma sample_uniform (b : cv2.BorderType) (c : Z) (h w : nat) (i j : Z) :
  h <> O -> w <> O -> cv2.sample b (uniform c h w) i j = c.
Proof.
  intros Hh Hw. unfold cv2.sample.
  rewrite uniform_rows, uniform_cols by assumption.
  apply at2_uniform; apply borderInterpolate_range; lia.
Qed.

Lemma dot_from_const (ker : list Z) (f : Z -> Z) (c k : Z) :
  (forall d, f d = c) -> cv2.dot_from ker f k = sumZ ker * c.
Proof.
  intros E. revert k. induction ker as [|a ker IH]; intros k; simpl.
  - reflexivity.
  - rewrite IH, E. ring.
Qed.

Lemma dot_const (ker : list Z) (f : Z -> Z) (c : Z) :
  (forall d, f d = c) -> cv2.dot ker f = sumZ ker * c.
Proof. intros E. unfold cv2.dot. now apply dot_from_const. Qed.

Lemma rowFilter_uniform (b : cv2.BorderType) (kx : list Z) (c : Z) (h w : nat) :
  h <> O -> w <> O ->
  cv2.rowFilter b kx (uniform c h w) = uniform (sumZ kx * c) h w.
Proof.
  intros Hh Hw. unfold cv2.rowFilter.
  rewrite uniform_rows, uniform_cols by assumption.
  rewrite <- (tabulate_const h w (sumZ kx * c)). apply tabulate_ext. intros i j.
  apply dot_const. intros d. now apply sample_uniform.
Qed.

Lemma columnFilter_uniform (b : cv2.BorderType) (ky : list Z) (c : Z) (h w : nat) :
  h <> O -> w <> O ->
  cv2.columnFilter b ky (uniform c h w) = uniform (sumZ ky * c) h w.
Proof.
  intros Hh Hw. unfold cv2.columnFilter.
  rewrite uniform_rows, uniform_cols by assumption.
  rewrite <- (tabulate_const h w (sumZ ky * c)). apply tabulate_ext. intros i j.
  apply dot_const. intros d. now apply sample_uniform.
Qed.

Lemma sepFilter2D_uniform (b : cv2.BorderType) (kx ky : list Z) (c : Z) (h w : nat) :
  h <> O -> w <> O ->
  cv2.sepFilter2D b kx ky (uniform c h w) = uniform (sumZ ky * (sumZ kx * c)) h w.
Proof.
  intros Hh Hw. unfold cv2.sepFilter2D.
  rewrite rowFilter_uniform by assumption. now apply columnFilter_uniform.
Qed.

(** A derivative kernel sums to zero: it annihilates constants. *)
Lemma sumZ_sub_combine (p q : list Z) :
  length p = length q ->
  sumZ (map (fun ab => fst ab - snd ab) (combine p q)) = sumZ p - sumZ q.
Proof.
  revert q. induction p as [|a p IH]; intros [|b q] Hlen; simpl in *; try lia.
  rewrite IH by lia. ring.
Qed.

Lemma sumZ_app (p q : list Z) : sumZ (p ++ q) = sumZ p + sumZ q.
Proof. induction p as [|a p IH]; simpl; [reflexivity|]. rewrite IH. ring. Qed.

Lemma sumZ_deriv_step (p : list Z) : sumZ (cv2.deriv_step p) = 0.
Proof.
  unfold cv2.deriv_step. rewrite sumZ_sub_combine.
  - rewrite sumZ_app. simpl. ring.
  - rewrite length_app. simpl. lia.
Qed.

Lemma sumZ_sobel_kernel_deriv (n : nat) : sumZ (cv2.sobel_kernel n 1) = 0.
Proof. unfold cv2.sobel_kernel. simpl. apply sumZ_deriv_step. Qed.

Lemma sumZ_scharr_kernel_deriv : sumZ (cv2.scharr_kernel 1) = 0.
Proof. reflexivity. Qed.

(** When the operator accepts the kernel size, the kernel of the derived
    axis sums to zero. *)
Lemma getDerivKernels_x (k : Z) (kx ky : list Z) :
  cv2.getDerivKernels 1 0 k = Some (kx, ky) -> sumZ kx = 0.
Proof.
  unfold cv2.getDerivKernels. destruct (k <=? 0).
  - intros [= <- _]. reflexivity.
  - destruct (Z.even k || (31 <? k)); [discriminate|].
    intros [= <- _]. apply sumZ_sobel_kernel_deriv.
Qed.

Lemma getDerivKernels_y (k : Z) (kx ky : list Z) :
  cv2.getDerivKernels 0 1 k = Some (kx, ky) -> sumZ ky = 0.
Proof.
  unfold cv2.getDerivKernels. destruct (k <=? 0).
  - intros [= _ <-]. reflexivity.
  - destruct (Z.even k || (31 <? k)); [discriminate|].
    intros [= _ <-]. apply sumZ_sobel_kernel_deriv.
Qed.

Lemma getDerivKernels_accepts (dx dy : nat) (k : Z) :
  Z.odd k = true -> k <= 31 -> exists ks, cv2.getDerivKernels dx dy k = Some ks.
Proof.
  intros Hodd Hk. unfold cv2.getDerivKernels.
  destruct (k <=? 0); [eauto|].
  rewrite <- Z.negb_odd, Hodd. simpl.
  replace (31 <? k) with false by (symmetry; apply Z.ltb_ge; lia).
  eauto.
Qed.

Lemma Sobel_accepts (src : plane) (dx dy : nat) (k : Z) :
  Z.odd k = true -> k <= 31 -> exists g, cv2.Sobel src dx dy k = Some g.
Proof.
  intros Hodd Hk. unfold cv2.Sobel.
  destruct (getDerivKernels_accepts dx dy k Hodd Hk) as [[kx ky] ->]. eauto.
Qed.

Lemma Sobel_x_uniform (c : Z) (h w : nat) (k : Z) (g : plane) :
  h <> O -> w <> O ->
  cv2.Sobel (uniform c h w) 1 0 k = Some g -> g = uniform 0 h w.
Proof.
  intros Hh Hw. unfold cv2.Sobel.
  destruct (cv2.getDerivKernels 1 0 k) as [[kx ky]|] eqn:E; [|discriminate].
  intros [= <-]. rewrite sepFilter2D_uniform by assumption.
  rewrite (getDerivKernels_x k kx ky E). f_equal. ring.
Qed.

Lemma Sobel_y_uniform (c : Z) (h w : nat) (k : Z) (g : plane) :
  h <> O -> w <> O ->
  cv2.Sobel (uniform c h w) 0 1 k = Some g -> g = uniform 0 h w.
Proof.
  intros Hh Hw. unfold cv2.Sobel.
  destruct (cv2.getDerivKernels 0 1 k) as [[kx ky]|] eqn:E; [|discriminate].
  intros [= <-]. rewrite sepFilter2D_uniform by assumption.
  rewrite (getDerivKernels_y k kx ky E). reflexivity.
Qed.

Lemma Sobel_has_shape (h w : nat) (src g : plane) (dx dy : nat) (k : Z) :
  has_shape h w src -> cv2.Sobel src dx dy k = Some g -> has_shape h w g.
Proof.
  intros Hs. unfold cv2.Sobel.
  destruct (cv2.getDerivKernels dx dy k) as [[kx ky]|]; [|discriminate].
  intros [= <-]. unfold cv2.sepFilter2D, cv2.columnFilter.
  apply tabulate_like. unfold cv2.rowFilter. now apply tabulate_like.
Qed.

Lemma sepFilter2D_has_shape (h w : nat) (b : cv2.BorderType) (kx ky : list Z)
    (src : plane) :
  has_shape h w src -> has_shape h w (cv2.sepFilter2D b kx ky src).
Proof.
  intros Hs. unfold cv2.sepFilter2D, cv2.columnFilter.
  apply tabulate_like. unfold cv2.rowFilter. now apply tabulate_like.
Qed.

Lemma Laplacian_has_shape (cv : cv2.build) (h w : nat) (src g : plane) (k : Z) :
  has_shape h w src -> cv2.Laplacian cv src k = Some g -> has_shape h w g.
Proof.
  intros Hs. unfold cv2.Laplacian.
  destruct ((k =? 1) || (k =? 3)).
  - intros [= <-]. unfold cv2.filter2D. now apply tabulate_like.
  - destruct ((k <=? 0) || Z.even k || (31 <? k)); [discriminate|].
    destruct (k <=? 5); intros [= <-].
    + unfold cv2.add_planes.
      apply zip_has_shape; now apply sepFilter2D_has_shape.
    + now apply tabulate_like.
Qed.

(** ** The degenerate case of min-max normalization *)

Lemma concat_uniform_cons {A : Type} (c : A) (h w : nat) :
  h <> O -> w <> O ->
  exists vs, concat (uniform c h w) = c :: vs /\ Forall (eq c) vs.
Proof.
  intros Hh Hw. destruct h as [|h]; [congruence|]. destruct w as [|w]; [congruence|].
  unfold uniform. simpl. eexists. split; [reflexivity|].
  apply Forall_app. split.
  - apply Forall_forall. intros x Hx. now apply repeat_spec in Hx.
  - apply Forall_concat. apply Forall_forall. intros r Hr.
    apply repeat_spec in Hr. subst r.
    apply Forall_forall. intros x Hx.
    change (c :: repeat c w) with (repeat c (S w)) in Hx.
    now apply repeat_spec in Hx.
Qed.

Lemma fold_left_idem {A : Type} (f : A -> A -> A) (c : A) (vs : list A) :
  f c c = c -> Forall (eq c) vs -> fold_left f vs c = c.
Proof.
  intros Hf Hvs. induction Hvs as [|v vs <- _ IH]; simpl; [reflexivity|].
  now rewrite Hf.
Qed.

Lemma minMaxIdx_zero (h w : nat) :
  h <> O -> w <> O -> cv2.minMaxIdx (uniform fzero h w) = (fzero, fzero).
Proof.
  intros Hh Hw. unfold cv2.minMaxIdx.
  destruct (concat_uniform_cons fzero h w Hh Hw) as [vs [-> Hvs]].
  rewrite !fold_left_idem by (assumption || reflexivity). reflexivity.
Qed.

(** With an empty value range the scale is 0, so is the shift, and every
    sample of the result is 0: no division takes place. *)
Lemma minmax_scale_shift_zero (h w : nat) :
  h <> O -> w <> O ->
  cv2.minmax_scale_shift 0 255 (uniform fzero h w) = (fzero, fzero).
Proof.
  intros Hh Hw. unfold cv2.minmax_scale_shift.
  rewrite minMaxIdx_zero by assumption. reflexivity.
Qed.

Lemma normalize_MINMAX_zero (h w : nat) :
  h <> O -> w <> O ->
  cv2.normalize_MINMAX (uniform fzero h w) 0 255 = uniform fzero h w.
Proof.
  intros Hh Hw. unfold cv2.normalize_MINMAX.
  rewrite minmax_scale_shift_zero by assumption.
  now rewrite map_map_uniform.
Qed.

Lemma magnitude_zero (h w : nat) :
  cv2.magnitude (uniform fzero h w) (uniform fzero h w) = uniform fzero h w.
Proof. unfold cv2.magnitude. now rewrite zip_uniform. Qed.

Lemma convertScaleAbs_zero (cv : cv2.build) (h w : nat) :
  cv2.convertScaleAbs cv (uniform 0 h w) = uniform 0 h w.
Proof. unfold cv2.convertScaleAbs. now rewrite map_map_uniform. Qed.

Lemma saturate_abs (v : Z) : cv2.saturate_u8 (Z.abs v) = Z.min (Z.abs v) 255.
Proof. unfold cv2.saturate_u8. lia. Qed.

(** The conversion of one sample, loop by loop: saturation below the
    threshold of the loop, 0 from it on. *)
Lemma abs_to_u8_scalar (v : Z) :
  cv2.abs_to_u8 false v = if 2 ^ 31 <=? Z.abs v then 0 else Z.min (Z.abs v) 255.
Proof.
  unfold cv2.abs_to_u8. cbv zeta. rewrite saturate_abs.
  destruct (2 ^ 31 <=? Z.abs v); [reflexivity|].
  now destruct (Z.abs v <? 2 ^ 31 - 64).
Qed.

Lemma abs_to_u8_vector (v : Z) :
  cv2.abs_to_u8 true v = if 2 ^ 31 - 64 <=? Z.abs v then 0 else Z.min (Z.abs v) 255.
Proof.
  unfold cv2.abs_to_u8. cbv zeta. rewrite saturate_abs.
  destruct (2 ^ 31 <=? Z.abs v) eqn:E1; destruct (Z.abs v <? 2 ^ 31 - 64) eqn:E2;
    destruct (2 ^ 31 - 64 <=? Z.abs v) eqn:E3; try reflexivity; exfalso;
    repeat match goal with
           | H : (_ <=? _) = true |- _ => apply Z.leb_le in H
           | H : (_ <=? _) = false |- _ => apply Z.leb_gt in H
           | H : (_ <? _) = true |- _ => apply Z.ltb_lt in H
           | H : (_ <? _) = false |- _ => apply Z.ltb_ge in H
           end; lia.
Qed.

Lemma abs_to_u8_converted (vectorised : bool) (v : Z) :
  converted v (cv2.abs_to_u8 vectorised v).
Proof.
  unfold converted, cv2.abs_to_u8. cbv zeta. rewrite saturate_abs.
  destruct (2 ^ 31 <=? Z.abs v) eqn:E1; destruct (Z.abs v <? 2 ^ 31 - 64) eqn:E2;
    destruct vectorised;
    repeat match goal with
           | H : (_ <=? _) = true |- _ => apply Z.leb_le in H
           | H : (_ <=? _) = false |- _ => apply Z.leb_gt in H
           | H : (_ <? _) = true |- _ => apply Z.ltb_lt in H
           | H : (_ <? _) = false |- _ => apply Z.ltb_ge in H
           end;
    pose proof (Z.abs_nonneg v); lia.
Qed.

Lemma abs_to_u8_in_u8 (vectorised : bool) (v : Z) : in_u8 (cv2.abs_to_u8 vectorised v).
Proof. exact (proj1 (abs_to_u8_converted vectorised v)). Qed.

Lemma convertScaleAbs_in_u8 (cv : cv2.build) (src : plane) :
  all_pixels in_u8 (cv2.convertScaleAbs cv src).
Proof.
  unfold all_pixels, cv2.convertScaleAbs.
  apply Forall_map, Forall_forall. intros r _.
  apply Forall_map, Forall_forall. intros v _.
  apply abs_to_u8_in_u8.
Qed.



(** ** The kernel normalizer *)

Lemma odd_mod2 (v : Z) : Z.odd v = (v mod 2 =? 1).
Proof.
  rewrite Zmod_odd. destruct (Z.odd v); reflexivity.
Qed.

Lemma _odd_of_odd (v : Z) : Z.odd v = true -> edges._odd v = v.
Proof. intros H. unfold edges._odd. now rewrite <- odd_mod2, H. Qed.

Lemma _odd_of_even (v : Z) : Z.even v = true -> edges._odd v = v + 1.
Proof.
  intros H. unfold edges._odd. rewrite <- odd_mod2, <- Z.negb_even, H. reflexivity.
Qed.

Lemma _odd_is_odd (v : Z) : Z.odd (edges._odd v) = true.
Proof.
  destruct (Z.odd v) eqn:E.
  - now rewrite _odd_of_odd.
  - rewrite _odd_of_even by (now rewrite <- Z.negb_odd, E).
    now rewrite Z.add_1_r, Z.odd_succ, <- Z.negb_odd, E.
Qed.

(** ** Letter case *)

Lemma upper_lower_char (c : ascii) : str.upper_char (str.lower_char c) = str.upper_char c.
Proof. destruct c as [[] [] [] [] [] [] [] []]; reflexivity. Qed.

Lemma lower_upper_char (c : ascii) : str.lower_char (str.upper_char c) = str.lower_char c.
Proof. destruct c as [[] [] [] [] [] [] [] []]; reflexivity. Qed.

Lemma lower_lower_char (c : ascii) : str.lower_char (str.lower_char c) = str.lower_char c.
Proof. destruct c as [[] [] [] [] [] [] [] []]; reflexivity. Qed.

Lemma lower_idem (s : string) : str.lower (str.lower s) = str.lower s.
Proof.
  induction s as [|c s IH]; simpl; [reflexivity|].
  now rewrite lower_lower_char, IH.
Qed.

(** [capitalize] sees its argument through [lower] only. *)
Lemma capitalize_lower (s : string) : str.capitalize (str.lower s) = str.capitalize s.
Proof.
  destruct s as [|c s]; simpl; [reflexivity|].
  now rewrite upper_lower_char, lower_idem.
Qed.

Lemma lower_capitalize (s : string) : str.lower (str.capitalize s) = str.lower s.
Proof.
  destruct s as [|c s]; simpl; [reflexivity|].
  now rewrite lower_upper_char, lower_idem.
Qed.

Lemma capitalize_case_variant (s t : string) :
  case_variant s t -> str.capitalize s = str.capitalize t.
Proof.
  unfold case_variant. intros E.
  now rewrite <- (capitalize_lower s), <- (capitalize_lower t), E.
Qed.

Lemma or_default_nonempty (s d : string) :
  s <> EmptyString -> str.or_default (Some s) d = s.
Proof. destruct s; [congruence|reflexivity]. Qed.

Lemma lower_empty (s : string) : str.lower s = EmptyString -> s = EmptyString.
Proof. destruct s; [reflexivity|discriminate]. Qed.

(** A direction normalizes to a canonical name only when it is a case
    variant of that name. *)
Lemma capitalize_canonical (s name : string) :
  str.capitalize s = name -> case_variant s name.
Proof.
  intros E. unfold case_variant. now rewrite <- E, lower_capitalize.
Qed.

(** ** Shapes through the OpenCV operators *)

Lemma cvtColor_BGR2GRAY_has_shape (h w : nat) (img : raster3) :
  has_shape h w img -> has_shape h w (cv2.cvtColor_BGR2GRAY img).
Proof. apply map_map_has_shape. Qed.

Lemma cvtColor_BGR2GRAY_rows (img : raster3) :
  np.rows (cv2.cvtColor_BGR2GRAY img) = np.rows img.
Proof. unfold np.rows, cv2.cvtColor_BGR2GRAY. apply length_map. Qed.

Lemma cvtColor_BGR2GRAY_cols (img : raster3) :
  np.cols (cv2.cvtColor_BGR2GRAY img) = np.cols img.
Proof.
  unfold np.cols, cv2.cvtColor_BGR2GRAY. destruct img as [|r img]; simpl.
  - reflexivity.
  - apply length_map.
Qed.

Lemma GaussianBlur_has_shape (gk : Z -> spec_float -> list Z) (h w : nat)
    (src : plane) (ksize : Z * Z) (sigmaX sigmaY : spec_float) :
  has_shape h w src -> has_shape h w (cv2.GaussianBlur gk src ksize sigmaX sigmaY).
Proof.
  intros Hs. unfold cv2.GaussianBlur.
  destruct ((fst ksize =? 1) && (snd ksize =? 1)); [assumption|].
  apply map_map_has_shape. now apply sepFilter2D_has_shape.
Qed.

Lemma grow_has_shape (h w : nat) (labels : plane) :
  has_shape h w labels -> has_shape h w (cv2.grow labels).
Proof. intros Hs. unfold cv2.grow. now apply tabulate_like. Qed.

Lemma iter_grow_has_shape (h w : nat) (n : nat) (labels : plane) :
  has_shape h w labels -> has_shape h w (Nat.iter n cv2.grow labels).
Proof.
  intros Hs. induction n as [|n IH]; simpl; [assumption|].
  now apply grow_has_shape.
Qed.

Lemma Canny_has_shape (h w : nat) (image : plane) (t1 t2 : Z) :
  has_shape h w image -> has_shape h w (cv2.Canny image t1 t2).
Proof.
  intros Hs. unfold cv2.Canny. apply map_map_has_shape.
  unfold cv2.hysteresis. apply iter_grow_has_shape. now apply tabulate_like.
Qed.

Lemma Canny_binary (image : plane) (t1 t2 : Z) :
  all_pixels binary_sample (cv2.Canny image t1 t2).
Proof.
  unfold all_pixels, cv2.Canny.
  apply Forall_map, Forall_forall. intros r _.
  apply Forall_map, Forall_forall. intros v _.
  unfold binary_sample. destruct (v =? 2); [now right|now left].
Qed.

(** ** Hysteresis reaches its fixed point *)

Lemma nth_map_seq {A : Type} (g : nat -> A) (d : A) (w k : nat) :
  (k < w)%nat -> nth k (map g (seq 0 w)) d = g k.
Proof.
  intros Hk. rewrite (nth_indep _ d (g 0%nat)) by now rewrite length_map, length_seq.
  rewrite map_nth, seq_nth by assumption. reflexivity.
Qed.

Lemma at2_tabulate {A : Type} (d : A) (h w : nat) (f : Z -> Z -> A) (i j : nat) :
  (i < h)%nat -> (j < w)%nat ->
  np.at2 d (np.tabulate h w f) (Z.of_nat i) (Z.of_nat j) = f (Z.of_nat i) (Z.of_nat j).
Proof.
  intros Hi Hj. unfold np.at2, np.tabulate.
  replace (Z.of_nat i <? 0) with false by (symmetry; apply Z.ltb_ge; lia).
  replace (Z.of_nat j <? 0) with false by (symmetry; apply Z.ltb_ge; lia).
  simpl. rewrite !Nat2Z.id.
  rewrite (nth_map_seq (fun i => map (fun j => f (Z.of_nat i) (Z.of_nat j)) (seq 0 w)))
    by assumption.
  now apply (nth_map_seq (fun j => f (Z.of_nat i) (Z.of_nat j))).
Qed.

Lemma tabulate_ext_in {A : Type} (h w : nat) (f g : Z -> Z -> A) :
  (forall i j, (i < h)%nat -> (j < w)%nat ->
               f (Z.of_nat i) (Z.of_nat j) = g (Z.of_nat i) (Z.of_nat j)) ->
  np.tabulate h w f = np.tabulate h w g.
Proof.
  intros E. unfold np.tabulate. apply map_ext_in. intros i Hi.
  apply map_ext_in. intros j Hj. apply in_seq in Hi, Hj. apply E; lia.
Qed.

(** A rectangular array is the table of its samples. *)
Lemma tabulate_at2 {A : Type} (d : A) (h w : nat) (a : list (list A)) :
  has_shape h w a -> np.tabulate h w (np.at2 d a) = a.
Proof.
  intros [Hlen Hall]. apply (nth_ext _ _ [] []).
  - pose proof (tabulate_rows h w (np.at2 d a)) as Hr. unfold np.rows in Hr. congruence.
  - intros i Hi. unfold np.tabulate in *. rewrite length_map, length_seq in Hi.
    rewrite (nth_map_seq (fun i => map (fun j => np.at2 d a (Z.of_nat i) (Z.of_nat j)) (seq 0 w)))
      by assumption.
    assert (Hrow : length (nth i a []) = w).
    { rewrite Forall_forall in Hall. apply Hall, nth_In. lia. }
    apply (nth_ext _ _ d d).
    + now rewrite length_map, length_seq.
    + intros j Hj. rewrite length_map, length_seq in Hj.
      rewrite (nth_map_seq (fun j => np.at2 d a (Z.of_nat i) (Z.of_nat j))) by assumption.
      unfold np.at2.
      replace (Z.of_nat i <? 0) with false by (symmetry; apply Z.ltb_ge; lia).
      replace (Z.of_nat j <? 0) with false by (symmetry; apply Z.ltb_ge; lia).
      simpl. now rewrite !Nat2Z.id.
Qed.

Lemma grow_tabulate (h w : nat) (labels : plane) :
  has_shape h w labels -> cv2.grow labels = np.tabulate h w (cv2.grow_at labels).
Proof.
  intros Hs. unfold cv2.grow. destruct h as [|h].
  - destruct Hs as [Hlen _]. unfold np.rows. now rewrite Hlen.
  - rewrite (has_shape_cols (S h) w labels Hs) by discriminate.
    destruct Hs as [Hlen _]. unfold np.rows. now rewrite Hlen.
Qed.

Lemma in_positions (h w : nat) (ij : nat * nat) :
  In ij (positions h w) <-> (fst ij < h)%nat /\ (snd ij < w)%nat.
Proof.
  destruct ij as [i j]. unfold positions. rewrite in_prod_iff, !in_seq. simpl. lia.
Qed.

(** Counting with a stronger test gives less, and as much only when the
    two tests agree on the whole list. *)
Lemma filter_length_le {A : Type} (P Q : A -> bool) (l : list A) :
  (forall x, In x l -> Q x = true -> P x = true) ->
  (length (filter Q l) <= length (filter P l))%nat.
Proof.
  induction l as [|x l IH]; intros H; simpl; [lia|].
  assert (IH' := IH (fun y Hy => H y (or_intror Hy))).
  destruct (Q x) eqn:EQ.
  - rewrite (H x (or_introl eq_refl) EQ). simpl. lia.
  - destruct (P x); simpl; lia.
Qed.

Lemma filter_length_eq {A : Type} (P Q : A -> bool) (l : list A) :
  (forall x, In x l -> Q x = true -> P x = true) ->
  length (filter Q l) = length (filter P l) ->
  forall x, In x l -> Q x = P x.
Proof.
  induction l as [|x l IH]; intros H E y Hy; [destruct Hy|].
  assert (Hl : forall z, In z l -> Q z = true -> P z = true)
    by (intros z Hz; apply H; now right).
  pose proof (filter_length_le P Q l Hl) as Hle.
  simpl in E. destruct (Q x) eqn:EQ.
  - rewrite (H x (or_introl eq_refl) EQ) in E. simpl in E.
    destruct Hy as [<-|Hy].
    + rewrite EQ. symmetry. now apply H; [left|].
    + apply IH; [assumption|lia|assumption].
  - destruct (P x) eqn:EP; simpl in E.
    + lia.
    + destruct Hy as [<-|Hy]; [congruence|]. now apply IH.
Qed.

Lemma grow_at_candidate (labels : plane) (i j : Z) :
  cv2.grow_at labels i j = 0 -> np.at2 1 labels i j = 0.
Proof.
  unfold cv2.grow_at.
  destruct ((np.at2 1 labels i j =? 0) && _); [discriminate|trivial].
Qed.

Lemma candidates_grow_le (h w : nat) (labels : plane) :
  has_shape h w labels ->
  (candidates h w (cv2.grow labels) <= candidates h w labels)%nat.
Proof.
  intros Hs. unfold candidates. apply filter_length_le.
  intros [i j] Hin. apply in_positions in Hin. simpl in Hin.
  unfold is_candidate. simpl. rewrite (grow_tabulate h w labels Hs).
  rewrite at2_tabulate by lia. rewrite !Z.eqb_eq. apply grow_at_candidate.
Qed.

(** A round that decides no candidate changes nothing. *)
Lemma candidates_grow_eq (h w : nat) (labels : plane) :
  has_shape h w labels ->
  candidates h w (cv2.grow labels) = candidates h w labels ->
  cv2.grow labels = labels.
Proof.
  intros Hs E. rewrite (grow_tabulate h w labels Hs).
  rewrite <- (tabulate_at2 1 h w labels Hs) at 2.
  apply tabulate_ext_in. intros i j Hi Hj.
  assert (Hagree : is_candidate (cv2.grow labels) (i, j) = is_candidate labels (i, j)).
  { revert E. unfold candidates. intros E.
    apply (filter_length_eq (is_candidate labels) (is_candidate (cv2.grow labels))
             (positions h w)); [|exact E|apply in_positions; simpl; lia].
    intros [a b] Hin. apply in_positions in Hin. simpl in Hin.
    unfold is_candidate. simpl. rewrite (grow_tabulate h w labels Hs).
    rewrite at2_tabulate by lia. rewrite !Z.eqb_eq. apply grow_at_candidate. }
  unfold is_candidate in Hagree. cbn [fst snd] in Hagree.
  rewrite (grow_tabulate h w labels Hs), at2_tabulate in Hagree by lia.
  unfold cv2.grow_at in *.
  set (near := existsb _ cv2.neighbours8) in *.
  destruct (np.at2 1 labels (Z.of_nat i) (Z.of_nat j) =? 0) eqn:E0;
    destruct near; cbn [andb] in *; try reflexivity.
  discriminate.
Qed.

Lemma iter_grow_fixed (n : nat) (labels : plane) :
  cv2.grow labels = labels -> Nat.iter n cv2.grow labels = labels.
Proof. intros E. induction n as [|n IH]; simpl; [reflexivity|]. now rewrite IH. Qed.

Lemma iter_grow_stable (h w : nat) (n : nat) (labels : plane) :
  has_shape h w labels -> (candidates h w labels <= n)%nat ->
  cv2.grow (Nat.iter n cv2.grow labels) = Nat.iter n cv2.grow labels.
Proof.
  revert labels. induction n as [|n IH]; intros labels Hs Hn.
  - simpl. apply (candidates_grow_eq h w labels Hs).
    pose proof (candidates_grow_le h w labels Hs). lia.
  - destruct (Nat.eq_dec (candidates h w (cv2.grow labels)) (candidates h w labels)) as [E|E].
    + apply (candidates_grow_eq h w labels Hs) in E.
      now rewrite iter_grow_fixed, E.
    + rewrite Nat.iter_succ_r. apply IH.
      * now apply grow_has_shape.
      * pose proof (candidates_grow_le h w labels Hs). lia.
Qed.

Lemma candidates_bound (h w : nat) (labels : plane) :
  (candidates h w labels <= h * w)%nat.
Proof.
  unfold candidates, positions.
  etransitivity; [apply filter_length_le with (P := fun _ => true); trivial|].
  rewrite forallb_filter_id by now apply forallb_forall.
  now rewrite length_prod, !length_seq.
Qed.

(** [hysteresis] stops at a fixed point of [grow]: no candidate next to an
    edge is left. *)
Lemma hysteresis_fixed_point (h w : nat) (labels : plane) :
  has_shape h w labels -> cv2.grow (cv2.hysteresis labels) = cv2.hysteresis labels.
Proof.
  intros Hs. unfold cv2.hysteresis. apply (iter_grow_stable h w); [assumption|].
  destruct h as [|h].
  - destruct Hs as [Hlen _]. unfold candidates, positions. simpl. lia.
  - rewrite (has_shape_cols (S h) w labels Hs) by discriminate.
    destruct Hs as [Hlen _]. unfold np.rows. rewrite Hlen. apply candidates_bound.
Qed.

(** ** The branches of [run_sobel] *)

Lemma run_sobel_normalized (cv : cv2.build) (img : raster3) (ksize : Z)
    (d1 d2 : option string) :
  str.capitalize (str.or_default d1 "Both") = str.capitalize (str.or_default d2 "Both") ->
  edges.run_sobel cv img ksize d1 = edges.run_sobel cv img ksize d2.
Proof. intros E. unfold edges.run_sobel. now rewrite E. Qed.

Lemma run_sobel_X (cv : cv2.build) (img : raster3) (ksize : Z) :
  edges.run_sobel cv img ksize (Some "X"%string) =
  option_map (cv2.convertScaleAbs cv)
    (cv2.Sobel (cv2.cvtColor_BGR2GRAY img) 1 0 (edges._odd ksize)).
Proof.
  unfold edges.run_sobel. simpl.
  destruct (cv2.Sobel (cv2.cvtColor_BGR2GRAY img) 1 0 (edges._odd ksize)); reflexivity.
Qed.

Lemma run_sobel_Y (cv : cv2.build) (img : raster3) (ksize : Z) :
  edges.run_sobel cv img ksize (Some "Y"%string) =
  option_map (cv2.convertScaleAbs cv)
    (cv2.Sobel (cv2.cvtColor_BGR2GRAY img) 0 1 (edges._odd ksize)).
Proof.
  unfold edges.run_sobel. simpl.
  destruct (cv2.Sobel (cv2.cvtColor_BGR2GRAY img) 0 1 (edges._odd ksize)); reflexivity.
Qed.

Lemma run_sobel_Both (cv : cv2.build) (img : raster3) (ksize : Z) :
  edges.run_sobel cv img ksize (Some "Both"%string) =
  match cv2.Sobel (cv2.cvtColor_BGR2GRAY img) 1 0 (edges._odd ksize),
        cv2.Sobel (cv2.cvtColor_BGR2GRAY img) 0 1 (edges._odd ksize) with
  | Some gx, Some gy =>
      Some (np.astype_uint8
              (cv2.normalize_MINMAX
                 (cv2.magnitude (np.astype_float32 gx) (np.astype_float32 gy)) 0 255))
  | _, _ => None
  end.
Proof.
  unfold edges.run_sobel. simpl.
  destruct (cv2.Sobel (cv2.cvtColor_BGR2GRAY img) 1 0 (edges._odd ksize)); [|reflexivity].
  simpl.
  destruct (cv2.Sobel (cv2.cvtColor_BGR2GRAY img) 0 1 (edges._odd ksize)); reflexivity.
Qed.

Lemma eqb_neq (s t : string) : s <> t -> String.eqb s t = false.
Proof. intros H. now apply String.eqb_neq. Qed.

Lemma run_sobel_other (cv : cv2.build) (img : raster3) (ksize : Z) (s : string) :
  s <> EmptyString ->
  str.capitalize s <> "X"%string -> str.capitalize s <> "Y"%string ->
  str.capitalize s <> "Both"%string ->
  edges.run_sobel cv img ksize (Some s) =
  Some (cv2.convertScaleAbs cv (np.zeros_like (cv2.cvtColor_BGR2GRAY img))).
Proof.
  intros Hs HX HY HB. unfold edges.run_sobel.
  rewrite (or_default_nonempty s _ Hs).
  rewrite (eqb_neq _ _ HX), (eqb_neq _ _ HY), (eqb_neq _ _ HB). reflexivity.
Qed.

(** ** When the filters return *)

Lemma run_sobel_returns (cv : cv2.build) (img : raster3) (ksize : Z)
    (direction : option string) :
  edges._odd ksize <= 31 ->
  exists out, edges.run_sobel cv img ksize direction = Some out.
Proof.
  intros Hk. unfold edges.run_sobel.
  destruct (Sobel_accepts (cv2.cvtColor_BGR2GRAY img) 1 0 _ (_odd_is_odd ksize) Hk)
    as [gx ->].
  destruct (Sobel_accepts (cv2.cvtColor_BGR2GRAY img) 0 1 _ (_odd_is_odd ksize) Hk)
    as [gy ->].
  set (d := str.capitalize (str.or_default direction "Both")).
  destruct (String.eqb d "X" || String.eqb d "Both");
    destruct (String.eqb d "Y" || String.eqb d "Both");
    simpl; destruct (String.eqb d "Both"); eauto.
Qed.

Lemma run_laplacian_returns (cv : cv2.build) (img : raster3) (ksize : Z) :
  1 <= edges._odd ksize <= 31 ->
  exists out, edges.run_laplacian cv img ksize = Some out.
Proof.
  intros Hk. unfold edges.run_laplacian, cv2.Laplacian.
  destruct ((edges._odd ksize =? 1) || (edges._odd ksize =? 3)); simpl; [eauto|].
  replace (edges._odd ksize <=? 0) with false by (symmetry; apply Z.leb_gt; lia).
  rewrite <- Z.negb_odd, _odd_is_odd.
  replace (31 <? edges._odd ksize) with false by (symmetry; apply Z.ltb_ge; lia).
  simpl. destruct (edges._odd ksize <=? 5); simpl; eauto.
Qed.

(** On an all-black raster both single-axis gradients vanish, whatever
    the accepted kernel size. *)
Lemma run_sobel_black (cv : cv2.build) (h w : nat) (ksize : Z) :
  h <> O -> w <> O -> edges._odd ksize <= 31 ->
  edges.run_sobel cv (uniform black h w) ksize (Some "X"%string) = Some (uniform 0 h w) /\
  edges.run_sobel cv (uniform black h w) ksize (Some "Y"%string) = Some (uniform 0 h w).
Proof.
  intros Hh Hw Hk. rewrite run_sobel_X, run_sobel_Y.
  unfold cv2.cvtColor_BGR2GRAY. rewrite map_map_uniform.
  destruct (Sobel_accepts (uniform (cv2.luma black) h w) 1 0 _ (_odd_is_odd ksize) Hk)
    as [gx Egx].
  destruct (Sobel_accepts (uniform (cv2.luma black) h w) 0 1 _ (_odd_is_odd ksize) Hk)
    as [gy Egy].
  rewrite Egx, Egy.
  apply Sobel_x_uniform in Egx; try assumption.
  apply Sobel_y_uniform in Egy; try assumption.
  subst gx gy. simpl. now rewrite convertScaleAbs_zero.
Qed.

(** ** How large a gradient gets *)






















(** ** Scenarios of the specification *)

Example canny_black_4x4 :
  edges.run_canny binomial_kernel (uniform black 4 4) 100 200 5 sigma_1_0
  = uniform 0 4 4.
Proof. vm_compute. reflexivity. Qed.

Example canny_step_edge :
  edges.run_canny binomial_kernel step_edge 100 200 1 fzero
  = [[0; 255; 0]; [0; 255; 0]; [0; 255; 0]].
Proof. vm_compute. reflexivity. Qed.

Example sobel_black_x_y (cv : cv2.build) :
  edges.run_sobel cv (uniform black 4 4) 3 (Some "X"%string) = Some (uniform 0 4 4) /\
  edges.run_sobel cv (uniform black 4 4) 3 (Some "Y"%string) = Some (uniform 0 4 4).
Proof. split; vm_compute; reflexivity. Qed.

Example laplacian_corner (cv : cv2.build) :
  edges.run_laplacian cv corner 3 = Some [[255; 0]; [0; 255]].
Proof. vm_compute. reflexivity. Qed.

Example sobel_step_edge_x (cv : cv2.build) :
  edges.run_sobel cv step_edge 3 (Some "x"%string)
  = Some [[0; 255; 0]; [0; 255; 0]; [0; 255; 0]].
Proof. vm_compute. reflexivity. Qed.

Example hysteresis_chain :
  cv2.hysteresis [[2; 0; 0; 0; 1; 0]] = [[2; 2; 2; 2; 1; 0]].
Proof. vm_compute. reflexivity. Qed.

Example sobel_kernel_5 :
  cv2.sobel_kernel 5 0 = [1; 4; 6; 4; 1] /\ cv2.sobel_kernel 5 1 = [-1; -2; 0; 2; 1] /\
  cv2.sobel_kernel 5 2 = [1; 0; -2; 0; 1].
Proof. repeat split. Qed.

(** ** The claims *)

(** C1. For every BGR raster, every threshold pair (in [0,255] or not),
    every kernel size and sigma, each pixel of the raster that [run_canny]
    returns is exactly 0 or 255. *)
Theorem run_canny_binary (gk : Z -> spec_float -> list Z) (img_bgr : raster3)
    (low high ksize : Z) (sigma : spec_float) :
  all_pixels binary_sample (edges.run_canny gk img_bgr low high ksize sigma).
Proof. unfold edges.run_canny. apply Canny_binary. Qed.

(** C3. For every odd [k >= 1] the kernel normalizer returns [k]; for every
    even [k >= 2] it returns [k + 1]; for every positive [k] the result is
    odd. *)
Theorem odd_on_positive (k : Z) :
  (1 <= k -> Z.odd k = true -> edges._odd k = k) /\
  (2 <= k -> Z.even k = true -> edges._odd k = k + 1) /\
  (1 <= k -> Z.odd (edges._odd k) = true).
Proof.
  repeat split.
  - intros _. apply _odd_of_odd.
  - intros _. apply _odd_of_even.
  - intros _. apply _odd_is_odd.
Qed.

Lemma odd_on_positive_witness :
  edges._odd 7 = 7 /\ edges._odd 4 = 4 + 1 /\ Z.odd (edges._odd 4) = true.
Proof.
  destruct (odd_on_positive 7) as [H7 _].
  destruct (odd_on_positive 4) as [_ [H4 H4']].
  split; [apply H7; [lia|reflexivity]|].
  split; [apply H4; [lia|reflexivity]|].
  apply H4'. lia.
Defined.

(** C9. For every integer [v], zero and negative values included, [_odd v]
    is odd: an odd [v] is returned unchanged and an even [v] is
    incremented by one. *)
Theorem odd_total (v : Z) :
  Z.odd (edges._odd v) = true /\
  (Z.odd v = true -> edges._odd v = v) /\
  (Z.even v = true -> edges._odd v = v + 1).
Proof.
  split; [apply _odd_is_odd|]. split; [apply _odd_of_odd|apply _odd_of_even].
Qed.

Lemma odd_total_witness :
  edges._odd (-3) = -3 /\ edges._odd (-4) = -4 + 1 /\ edges._odd 0 = 0 + 1.
Proof.
  split; [apply (odd_total (-3)); reflexivity|].
  split; [apply (odd_total (-4)); reflexivity|].
  apply (odd_total 0). reflexivity.
Defined.

(** C6. For every 3-channel raster, [pil_to_cv2] followed by [cv2_to_pil]
    returns the original image, pixel for pixel. *)
Theorem rgb_bgr_roundtrip (px : raster3) :
  image_io.cv2_to_pil (image_io.pil_to_cv2 (PIL.ImageRGB px)) = PIL.ImageRGB px.
Proof.
  unfold image_io.cv2_to_pil, image_io.pil_to_cv2, PIL.fromarray. simpl.
  f_equal. unfold cv2.cvtColor_BGR2RGB, cv2.cvtColor_RGB2BGR.
  rewrite map_map. rewrite <- (map_id px) at 2. apply map_ext. intros r.
  rewrite map_map. rewrite <- (map_id r) at 2. apply map_ext.
  intros [[c0 c1] c2]. reflexivity.
Qed.

(** C7. [run_canny] blurs the grayscale image exactly when [ksize > 1] or
    [sigma > 0]; the blur then is the Gaussian blur with the kernel size
    normalized to odd in both directions and [sigma] on both axes.
    Otherwise the edge operator receives the grayscale image itself,
    whatever the Gaussian weights are. *)
Theorem run_canny_blur_gate (gk : Z -> spec_float -> list Z) (img_bgr : raster3)
    (low high ksize : Z) (sigma : spec_float) :
  let gray := cv2.cvtColor_BGR2GRAY img_bgr in
  (blur_requested ksize sigma ->
     edges.run_canny gk img_bgr low high ksize sigma =
     cv2.Canny (cv2.GaussianBlur gk gray (edges._odd ksize, edges._odd ksize) sigma sigma)
               low high) /\
  (~ blur_requested ksize sigma ->
     edges.run_canny gk img_bgr low high ksize sigma = cv2.Canny gray low high).
Proof.
  intros gray. unfold edges.run_canny, edges._gaussian_blur, blur_requested. fold gray.
  destruct (1 <? ksize) eqn:Ek; destruct (SFltb (S754_zero false) sigma) eqn:Es;
    simpl; split; intros H; try reflexivity.
  - exfalso. apply H. now right.
  - exfalso. apply H. left. now apply Z.ltb_lt.
  - exfalso. apply H. now right.
  - exfalso. apply Z.ltb_ge in Ek. destruct H as [H|H]; [lia|discriminate].
Qed.

Lemma run_canny_blur_gate_witness :
  (blur_requested 5 sigma_1_0 /\
   edges.run_canny binomial_kernel step_edge 100 200 5 sigma_1_0 =
   cv2.Canny (cv2.GaussianBlur binomial_kernel (cv2.cvtColor_BGR2GRAY step_edge)
                (edges._odd 5, edges._odd 5) sigma_1_0 sigma_1_0) 100 200) /\
  (~ blur_requested 1 fzero /\
   edges.run_canny binomial_kernel step_edge 100 200 1 fzero =
   cv2.Canny (cv2.cvtColor_BGR2GRAY step_edge) 100 200).
Proof.
  assert (H5 : blur_requested 5 sigma_1_0) by (left; lia).
  assert (H1 : ~ blur_requested 1 fzero)
    by (intros [H|H]; [lia|discriminate]).
  destruct (run_canny_blur_gate binomial_kernel step_edge 100 200 5 sigma_1_0) as [Hon _].
  destruct (run_canny_blur_gate binomial_kernel step_edge 100 200 1 fzero) as [_ Hoff].
  split; split.
  - exact H5.
  - exact (Hon H5).
  - exact H1.
  - exact (Hoff H1).
Defined.

(** C10. A direction that is [None] or the empty string makes [run_sobel]
    behave exactly as direction "Both" does; in particular the call
    returns a raster whenever the Sobel operator accepts the kernel size. *)
Theorem run_sobel_falsy_direction (cv : cv2.build) (img_bgr : raster3) (ksize : Z) :
  edges.run_sobel cv img_bgr ksize None
  = edges.run_sobel cv img_bgr ksize (Some "Both"%string) /\
  edges.run_sobel cv img_bgr ksize (Some EmptyString)
  = edges.run_sobel cv img_bgr ksize (Some "Both"%string) /\
  (edges._odd ksize <= 31 ->
   exists out, edges.run_sobel cv img_bgr ksize None = Some out).
Proof.
  split; [reflexivity|]. split; [reflexivity|]. intros Hk.
  change (edges.run_sobel cv img_bgr ksize None)
    with (edges.run_sobel cv img_bgr ksize (Some "Both"%string)).
  rewrite run_sobel_Both.
  destruct (Sobel_accepts (cv2.cvtColor_BGR2GRAY img_bgr) 1 0 _ (_odd_is_odd ksize) Hk)
    as [gx ->].
  destruct (Sobel_accepts (cv2.cvtColor_BGR2GRAY img_bgr) 0 1 _ (_odd_is_odd ksize) Hk)
    as [gy ->].
  eauto.
Qed.

Lemma run_sobel_falsy_direction_witness :
  edges._odd 3 <= 31 /\
  exists out, edges.run_sobel sample_build step_edge 3 None = Some out.
Proof.
  assert (H : edges._odd 3 <= 31) by (vm_compute; discriminate).
  destruct (run_sobel_falsy_direction sample_build step_edge 3) as [_ [_ Hret]].
  split; [exact H|]. exact (Hret H).
Defined.

(** C2, as amended.  Direction matching is case-insensitive: two direction
    strings that differ in letter case only give the same result.  The
    empty direction gives the result of "Both".  A non-empty direction
    that is no case variant of "X", "Y" or "Both" does not select the
    behaviour of "Both": no gradient is computed and the result is the
    all-zero raster of the input's size. *)
Theorem run_sobel_direction_matching (cv : cv2.build) (img_bgr : raster3) (ksize : Z)
    (s t : string) :
  (case_variant s t ->
     edges.run_sobel cv img_bgr ksize (Some s) = edges.run_sobel cv img_bgr ksize (Some t)) /\
  edges.run_sobel cv img_bgr ksize (Some EmptyString)
  = edges.run_sobel cv img_bgr ksize (Some "Both"%string) /\
  (s <> EmptyString ->
   ~ case_variant s "X" -> ~ case_variant s "Y" -> ~ case_variant s "Both" ->
     edges.run_sobel cv img_bgr ksize (Some s)
     = Some (uniform 0 (np.rows img_bgr) (np.cols img_bgr))).
Proof.
  split; [|split].
  - intros Hv. apply run_sobel_normalized.
    destruct (String.eqb s EmptyString) eqn:Es.
    + apply String.eqb_eq in Es. subst s.
      unfold case_variant in Hv. simpl in Hv. symmetry in Hv.
      apply lower_empty in Hv. now subst t.
    + apply String.eqb_neq in Es.
      assert (Et : t <> EmptyString).
      { intros ->. apply Es. now apply lower_empty. }
      rewrite !or_default_nonempty by assumption.
      now apply capitalize_case_variant.
  - reflexivity.
  - intros Hs HX HY HB. rewrite run_sobel_other; try assumption.
    + unfold np.zeros_like. rewrite tabulate_const, convertScaleAbs_zero.
      now rewrite cvtColor_BGR2GRAY_rows, cvtColor_BGR2GRAY_cols.
    + intros E. apply HX. now apply capitalize_canonical.
    + intros E. apply HY. now apply capitalize_canonical.
    + intros E. apply HB. now apply capitalize_canonical.
Qed.

Lemma run_sobel_direction_matching_witness :
  (case_variant "bOTH" "Both" /\
   edges.run_sobel sample_build step_edge 3 (Some "bOTH"%string)
   = edges.run_sobel sample_build step_edge 3 (Some "Both"%string)) /\
  edges.run_sobel sample_build step_edge 3 (Some "Z"%string) = Some (uniform 0 3 3).
Proof.
  destruct (run_sobel_direction_matching sample_build step_edge 3 "bOTH" "Both") as [Hcase _].
  destruct (run_sobel_direction_matching sample_build step_edge 3 "Z" "Z") as [_ [_ Hother]].
  assert (Hv : case_variant "bOTH" "Both") by reflexivity.
  split; [split; [exact Hv|exact (Hcase Hv)]|].
  apply Hother; unfold case_variant; simpl; discriminate.
Defined.

(** C2, as stated, fails: on the step edge the unrecognized direction "Z"
    gives the all-zero raster, direction "Both" does not. *)
Lemma run_sobel_unrecognized_is_not_both :
  ~ case_variant "Z" "X" /\ ~ case_variant "Z" "Y" /\ ~ case_variant "Z" "Both" /\
  forall cv : cv2.build,
  edges.run_sobel cv step_edge 3 (Some "Z"%string)
  = Some [[0; 0; 0]; [0; 0; 0]; [0; 0; 0]] /\
  edges.run_sobel cv step_edge 3 (Some "Both"%string)
  = Some [[0; 255; 0]; [0; 255; 0]; [0; 255; 0]] /\
  edges.run_sobel cv step_edge 3 (Some "Z"%string)
  <> edges.run_sobel cv step_edge 3 (Some "Both"%string).
Proof.
  split; [unfold case_variant; simpl; discriminate|].
  split; [unfold case_variant; simpl; discriminate|].
  split; [unfold case_variant; simpl; discriminate|].
  intros cv.
  assert (HZ : edges.run_sobel cv step_edge 3 (Some "Z"%string)
               = Some [[0; 0; 0]; [0; 0; 0]; [0; 0; 0]])
    by (vm_compute; reflexivity).
  assert (HB : edges.run_sobel cv step_edge 3 (Some "Both"%string)
               = Some [[0; 255; 0]; [0; 255; 0]; [0; 255; 0]])
    by (vm_compute; reflexivity).
  split; [exact HZ|]. split; [exact HB|].
  rewrite HZ, HB. discriminate.
Qed.

(** C4, as amended.  For every uniform raster of positive size and every
    kernel size whose odd normalization the Sobel operator accepts (at
    most 31), [run_sobel] with direction "Both" returns the all-zero
    raster: the empty value range makes the scale of the min-max
    normalization 0, and nothing is divided. *)
Theorem run_sobel_both_uniform (cv : cv2.build) (c : pixel3) (h w : nat) (ksize : Z) :
  (0 < h)%nat -> (0 < w)%nat -> edges._odd ksize <= 31 ->
  edges.run_sobel cv (uniform c h w) ksize (Some "Both"%string) = Some (uniform 0 h w).
Proof.
  intros Hh Hw Hk.
  assert (Hh' : h <> O) by lia. assert (Hw' : w <> O) by lia.
  rewrite run_sobel_Both.
  unfold cv2.cvtColor_BGR2GRAY. rewrite map_map_uniform.
  destruct (Sobel_accepts (uniform (cv2.luma c) h w) 1 0 _ (_odd_is_odd ksize) Hk)
    as [gx Egx].
  destruct (Sobel_accepts (uniform (cv2.luma c) h w) 0 1 _ (_odd_is_odd ksize) Hk)
    as [gy Egy].
  rewrite Egx, Egy.
  apply Sobel_x_uniform in Egx; try assumption.
  apply Sobel_y_uniform in Egy; try assumption.
  subst gx gy. f_equal.
  unfold np.astype_float32. rewrite map_map_uniform.
  change (np.float32_of_Z 0) with fzero.
  rewrite magnitude_zero, normalize_MINMAX_zero by assumption.
  unfold np.astype_uint8. now rewrite map_map_uniform.
Qed.

Lemma run_sobel_both_uniform_witness :
  (0 < 4)%nat /\ (0 < 5)%nat /\ edges._odd 3 <= 31 /\
  edges.run_sobel sample_build (uniform (10, 200, 30) 4 5) 3 (Some "Both"%string)
  = Some (uniform 0 4 5).
Proof.
  assert (H4 : (0 < 4)%nat) by lia.
  assert (H5 : (0 < 5)%nat) by lia.
  assert (Hk : edges._odd 3 <= 31) by (vm_compute; discriminate).
  split; [exact H4|]. split; [exact H5|]. split; [exact Hk|].
  exact (run_sobel_both_uniform sample_build (10, 200, 30) 4 5 3 H4 H5 Hk).
Defined.

(** C4, as stated for any kernel size, fails: with kernel size 33 the
    Sobel operator rejects the size and [run_sobel] returns no raster. *)
Lemma run_sobel_both_uniform_large_kernel :
  edges._odd 33 = 33 /\
  forall cv : cv2.build,
  edges.run_sobel cv (uniform (10, 200, 30) 4 5) 33 (Some "Both"%string) = None.
Proof. split; [|intros cv]; vm_compute; reflexivity. Qed.







(** C8. Every filter preserves the spatial dimensions: for an input raster
    of [h] rows and [w] columns, the raster returned by [run_canny], by
    [run_sobel] in any direction and by [run_laplacian] has [h] rows and
    [w] columns. *)
Theorem pipeline_preserves_shape (gk : Z -> spec_float -> list Z) (cv : cv2.build) (h w : nat)
    (img_bgr : raster3) :
  has_shape h w img_bgr ->
  (forall low high ksize sigma,
     has_shape h w (edges.run_canny gk img_bgr low high ksize sigma)) /\
  (forall ksize direction out,
     edges.run_sobel cv img_bgr ksize direction = Some out -> has_shape h w out) /\
  (forall ksize out,
     edges.run_laplacian cv img_bgr ksize = Some out -> has_shape h w out).
Proof.
  intros Himg.
  pose proof (cvtColor_BGR2GRAY_has_shape h w img_bgr Himg) as Hgray.
  split; [|split].
  - intros low high ksize sigma. unfold edges.run_canny, edges._gaussian_blur.
    apply Canny_has_shape.
    destruct ((1 <? ksize) || SFltb (S754_zero false) sigma); [|assumption].
    now apply GaussianBlur_has_shape.
  - intros ksize direction out. unfold edges.run_sobel.
    set (gray := cv2.cvtColor_BGR2GRAY img_bgr) in *.
    set (d := str.capitalize (str.or_default direction "Both")).
    assert (Hz : has_shape h w (np.zeros_like gray))
      by (unfold np.zeros_like; now apply tabulate_like).
    assert (Hgx : forall gx,
               (if String.eqb d "X" || String.eqb d "Both"
                then cv2.Sobel gray 1 0 (edges._odd ksize)
                else Some (np.zeros_like gray)) = Some gx -> has_shape h w gx).
    { intros gx. destruct (String.eqb d "X" || String.eqb d "Both").
      - now apply Sobel_has_shape.
      - now intros [= <-]. }
    assert (Hgy : forall gy,
               (if String.eqb d "Y" || String.eqb d "Both"
                then cv2.Sobel gray 0 1 (edges._odd ksize)
                else Some (np.zeros_like gray)) = Some gy -> has_shape h w gy).
    { intros gy. destruct (String.eqb d "Y" || String.eqb d "Both").
      - now apply Sobel_has_shape.
      - now intros [= <-]. }
    destruct (if String.eqb d "X" || String.eqb d "Both"
              then cv2.Sobel gray 1 0 (edges._odd ksize)
              else Some (np.zeros_like gray)) as [gx|]; [|discriminate].
    specialize (Hgx gx eq_refl). simpl.
    destruct (if String.eqb d "Y" || String.eqb d "Both"
              then cv2.Sobel gray 0 1 (edges._odd ksize)
              else Some (np.zeros_like gray)) as [gy|]; [|discriminate].
    specialize (Hgy gy eq_refl). simpl.
    destruct (String.eqb d "Both").
    + intros [= <-]. unfold np.astype_uint8, cv2.normalize_MINMAX.
      destruct (cv2.minmax_scale_shift 0 255 _) as [scale shift].
      apply map_map_has_shape, map_map_has_shape.
      unfold cv2.magnitude. apply zip_has_shape;
        unfold np.astype_float32; now apply map_map_has_shape.
    + intros [= <-]. unfold cv2.convertScaleAbs. apply map_map_has_shape.
      now destruct (String.eqb d "X" || false).
  - intros ksize out. unfold edges.run_laplacian.
    destruct (cv2.Laplacian cv (cv2.cvtColor_BGR2GRAY img_bgr) (edges._odd ksize))
      as [lap|] eqn:E; simpl; [|discriminate].
    intros [= <-]. unfold cv2.convertScaleAbs. apply map_map_has_shape.
    now apply (Laplacian_has_shape cv h w _ lap _ Hgray E).
Qed.

Lemma pipeline_preserves_shape_witness :
  has_shape 3 3 step_edge /\
  has_shape 3 3 (edges.run_canny binomial_kernel step_edge 100 200 5 sigma_1_0) /\
  (edges.run_sobel sample_build step_edge 3 (Some "Both"%string)
   = Some [[0; 255; 0]; [0; 255; 0]; [0; 255; 0]] /\
   has_shape 3 3 [[0; 255; 0]; [0; 255; 0]; [0; 255; 0]]) /\
  (edges.run_laplacian sample_build step_edge 3
   = Some [[0; 255; 255]; [0; 255; 255]; [0; 255; 255]] /\
   has_shape 3 3 [[0; 255; 255]; [0; 255; 255]; [0; 255; 255]]).
Proof.
  assert (Hs : has_shape 3 3 step_edge).
  { split; [reflexivity|]. repeat constructor. }
  assert (HB : edges.run_sobel sample_build step_edge 3 (Some "Both"%string)
               = Some [[0; 255; 0]; [0; 255; 0]; [0; 255; 0]])
    by (vm_compute; reflexivity).
  assert (HL : edges.run_laplacian sample_build step_edge 3
               = Some [[0; 255; 255]; [0; 255; 255]; [0; 255; 255]])
    by (vm_compute; reflexivity).
  destruct (pipeline_preserves_shape binomial_kernel sample_build 3 3 step_edge Hs)
    as [Hc [Hsob Hlap]].
  split; [exact Hs|]. split; [exact (Hc 100 200 5 sigma_1_0)|].
  split; [split; [exact HB|exact (Hsob 3 _ _ HB)]|].
  split; [exact HL|exact (Hlap 3 _ HL)].
Defined.

(** * Further properties of the code *)

(** ** More on the kernel normalizer *)

Lemma _odd_bounds (v : Z) : v <= edges._odd v <= v + 1.
Proof. unfold edges._odd. destruct (v mod 2 =? 1); lia. Qed.

Lemma odd_succ_odd_false (u : Z) : Z.odd u = true -> Z.odd (u + 1) = false.
Proof.
  intros H. rewrite Z.add_1_r, Z.odd_succ, <- Z.negb_odd, H. reflexivity.
Qed.

Lemma _odd_least (v u : Z) : Z.odd u = true -> v <= u -> edges._odd v <= u.
Proof.
  intros Hu Hvu. destruct (Z.odd v) eqn:Ev.
  - now rewrite _odd_of_odd.
  - rewrite _odd_of_even by (now rewrite <- Z.negb_odd, Ev).
    assert (u <> v) by (intros ->; congruence). lia.
Qed.

(** X1. [_odd v] is the least odd integer that is not below [v]. *)
Theorem odd_least_above (v u : Z) :
  Z.odd (edges._odd v) = true /\ v <= edges._odd v /\
  (Z.odd u = true -> v <= u -> edges._odd v <= u).
Proof.
  split; [apply _odd_is_odd|]. split; [apply _odd_bounds|apply _odd_least].
Qed.

Lemma odd_least_above_witness :
  Z.odd 7 = true /\ 6 <= 7 /\ edges._odd 6 <= 7.
Proof.
  assert (H7 : Z.odd 7 = true) by reflexivity.
  assert (H6 : 6 <= 7) by lia.
  split; [exact H7|]. split; [exact H6|].
  exact (proj2 (proj2 (odd_least_above 6 7)) H7 H6).
Defined.

(** X2. Normalizing twice is normalizing once, and a larger request never
    gets a smaller kernel. *)
Theorem odd_idempotent_monotone (v w : Z) :
  edges._odd (edges._odd v) = edges._odd v /\
  (v <= w -> edges._odd v <= edges._odd w).
Proof.
  split.
  - apply _odd_of_odd, _odd_is_odd.
  - intros Hvw. apply _odd_least.
    + apply _odd_is_odd.
    + pose proof (_odd_bounds w). lia.
Qed.

Lemma odd_idempotent_monotone_witness :
  -4 <= 8 /\ edges._odd (-4) <= edges._odd 8.
Proof.
  assert (H : -4 <= 8) by lia.
  split; [exact H|]. exact (proj2 (odd_idempotent_monotone (-4) 8) H).
Defined.

Lemma _odd_even_succ (k : Z) : Z.even k = true -> edges._odd (k + 1) = edges._odd k.
Proof.
  intros Hk. rewrite (_odd_of_even k Hk). apply _odd_of_odd.
  now rewrite Z.add_1_r, Z.odd_succ.
Qed.

Lemma even_gate (k : Z) : Z.even k = true -> (1 <? k + 1) = (1 <? k).
Proof.
  intros Hk. destruct (Z.eq_dec k 1) as [->|Hne]; [discriminate|].
  destruct (1 <? k) eqn:E.
  - apply Z.ltb_lt in E. apply Z.ltb_lt. lia.
  - apply Z.ltb_ge in E. apply Z.ltb_ge. lia.
Qed.

(** X3. An even kernel size behaves as the next odd size, in the blur and
    in each of the three filters. *)
Theorem even_size_is_next_odd (gk : Z -> spec_float -> list Z) (cv : cv2.build)
    (img_bgr : raster3)
    (gray : plane) (low high ksize : Z) (sigma : spec_float)
    (direction : option string) :
  Z.even ksize = true ->
  edges._gaussian_blur gk gray ksize sigma
  = edges._gaussian_blur gk gray (ksize + 1) sigma /\
  edges.run_canny gk img_bgr low high ksize sigma
  = edges.run_canny gk img_bgr low high (ksize + 1) sigma /\
  edges.run_sobel cv img_bgr ksize direction
  = edges.run_sobel cv img_bgr (ksize + 1) direction /\
  edges.run_laplacian cv img_bgr ksize = edges.run_laplacian cv img_bgr (ksize + 1).
Proof.
  intros Hk.
  assert (Hb : edges._gaussian_blur gk gray ksize sigma
               = edges._gaussian_blur gk gray (ksize + 1) sigma).
  { unfold edges._gaussian_blur. now rewrite (_odd_even_succ ksize Hk). }
  split; [exact Hb|]. split; [|split].
  - unfold edges.run_canny, edges._gaussian_blur.
    now rewrite (_odd_even_succ ksize Hk), (even_gate ksize Hk).
  - unfold edges.run_sobel. now rewrite (_odd_even_succ ksize Hk).
  - unfold edges.run_laplacian. now rewrite (_odd_even_succ ksize Hk).
Qed.

Lemma even_size_is_next_odd_witness :
  Z.even 4 = true /\
  edges.run_laplacian sample_build step_edge 4
  = edges.run_laplacian sample_build step_edge (4 + 1).
Proof.
  assert (H : Z.even 4 = true) by reflexivity.
  destruct (even_size_is_next_odd binomial_kernel sample_build step_edge [] 0 0 4 fzero None H)
    as [_ [_ [_ Hl]]].
  split; [exact H|exact Hl].
Defined.

(** X4. With kernel size 1 (or 0, which normalizes to 1) the Gaussian
    kernel is a single tap: whatever sigma is, [run_canny] gives the edge
    map of the unblurred grayscale image. *)
Theorem run_canny_size_1 (gk : Z -> spec_float -> list Z) (img_bgr : raster3)
    (low high ksize : Z) (sigma : spec_float) :
  ksize = 0 \/ ksize = 1 ->
  edges.run_canny gk img_bgr low high ksize sigma
  = cv2.Canny (cv2.cvtColor_BGR2GRAY img_bgr) low high.
Proof.
  intros Hk. unfold edges.run_canny, edges._gaussian_blur.
  assert (Ho : edges._odd ksize = 1) by (destruct Hk as [-> | ->]; reflexivity).
  rewrite Ho. unfold cv2.GaussianBlur. cbn [fst snd Z.eqb andb].
  now destruct ((1 <? ksize) || SFltb (S754_zero false) sigma).
Qed.

Lemma run_canny_size_1_witness :
  (1 = 0 \/ 1 = 1) /\
  edges.run_canny binomial_kernel step_edge 100 200 1 sigma_1_0
  = cv2.Canny (cv2.cvtColor_BGR2GRAY step_edge) 100 200.
Proof.
  assert (H : 1 = 0 \/ 1 = 1) by (right; reflexivity).
  split; [exact H|].
  exact (run_canny_size_1 binomial_kernel step_edge 100 200 1 sigma_1_0 H).
Defined.

(** ** Flat rasters have no edges *)

Lemma gray_uniform (c : pixel3) (h w : nat) :
  cv2.cvtColor_BGR2GRAY (uniform c h w) = uniform (cv2.luma c) h w.
Proof. unfold cv2.cvtColor_BGR2GRAY. apply map_map_uniform. Qed.

Lemma nth_repeat_same {A : Type} (c : A) (n k : nat) : nth k (repeat c n) c = c.
Proof.
  revert k. induction n as [|n IH]; intros [|k]; simpl; trivial.
Qed.

(** Read with its own sample as the default, a uniform array gives that
    sample at every index, inside or outside. *)
Lemma at2_uniform_same {A : Type} (c : A) (h w : nat) (i j : Z) :
  np.at2 c (uniform c h w) i j = c.
Proof.
  unfold np.at2, uniform. destruct ((i <? 0) || (j <? 0)); [reflexivity|].
  destruct (Nat.lt_ge_cases (Z.to_nat i) h) as [Hi|Hi].
  - rewrite (nth_repeat_lt (repeat c w) [] h) by assumption. apply nth_repeat_same.
  - rewrite (nth_overflow (repeat (repeat c w) h) []) by now rewrite repeat_length.
    now destruct (Z.to_nat j).
Qed.

Lemma sumZ_sobel_kernel_deriv2 (n : nat) : sumZ (cv2.sobel_kernel n 2) = 0.
Proof. unfold cv2.sobel_kernel. simpl. apply sumZ_deriv_step. Qed.

Lemma add_planes_uniform (a b : Z) (h w : nat) :
  cv2.add_planes (uniform a h w) (uniform b h w) = uniform (a + b) h w.
Proof. unfold cv2.add_planes. now rewrite zip_uniform. Qed.

Lemma filter2D_laplacian_uniform (k : Z) (c : Z) (h w : nat) :
  h <> O -> w <> O ->
  cv2.filter2D cv2.BORDER_REFLECT_101 (cv2.laplacian_kernel k) (uniform c h w)
  = uniform 0 h w.
Proof.
  intros Hh Hw. unfold cv2.filter2D.
  rewrite uniform_rows, uniform_cols by assumption.
  rewrite <- (tabulate_const h w 0). apply tabulate_ext. intros i j.
  assert (Hrow : forall row di,
             cv2.dot row (fun dj => cv2.sample cv2.BORDER_REFLECT_101 (uniform c h w)
                                      (i + di) (j + dj)) = sumZ row * c).
  { intros row di. apply dot_const. intros d. now apply sample_uniform. }
  unfold cv2.laplacian_kernel. destruct (k =? 1);
    unfold cv2.dot at 1; cbn [map length cv2.dot_from Z.of_nat];
    rewrite !Hrow;
    repeat match goal with
           | |- context [sumZ ?l] =>
               let v := eval vm_compute in (sumZ l) in change (sumZ l) with v
           end; ring.
Qed.

(** Where the Laplacian is computed in integers, it vanishes on a
    uniform raster. *)
Lemma Laplacian_uniform (cv : cv2.build) (c : Z) (h w : nat) (k : Z) (lap : plane) :
  h <> O -> w <> O -> k <= 5 ->
  cv2.Laplacian cv (uniform c h w) k = Some lap -> lap = uniform 0 h w.
Proof.
  intros Hh Hw Hk. unfold cv2.Laplacian. destruct ((k =? 1) || (k =? 3)).
  - intros [= <-]. now apply filter2D_laplacian_uniform.
  - destruct ((k <=? 0) || Z.even k || (31 <? k)); [discriminate|].
    replace (k <=? 5) with true by (symmetry; apply Z.leb_le; lia).
    intros [= <-]. rewrite !sepFilter2D_uniform by assumption.
    rewrite sumZ_sobel_kernel_deriv2, add_planes_uniform. f_equal. ring.
Qed.

Lemma GaussianBlur_uniform (gk : Z -> spec_float -> list Z) (c : Z) (h w : nat)
    (ksize : Z * Z) (sx sy : spec_float) :
  h <> O -> w <> O ->
  exists c', cv2.GaussianBlur gk (uniform c h w) ksize sx sy = uniform c' h w.
Proof.
  intros Hh Hw. unfold cv2.GaussianBlur.
  destruct ((fst ksize =? 1) && (snd ksize =? 1)); [now exists c|].
  rewrite sepFilter2D_uniform by assumption. rewrite map_map_uniform. eauto.
Qed.

Lemma grow_uniform_1 (h w : nat) :
  h <> O -> cv2.grow (uniform 1 h w) = uniform 1 h w.
Proof.
  intros Hh. unfold cv2.grow. rewrite uniform_rows, uniform_cols by assumption.
  rewrite <- (tabulate_const h w 1) at 2. apply tabulate_ext. intros i j.
  unfold cv2.grow_at. now rewrite at2_uniform_same.
Qed.

(** On a uniform image both gradients vanish, no pixel passes the
    non-maximum suppression, and hysteresis has nothing to grow. *)
Lemma Canny_uniform (c : Z) (h w : nat) (t1 t2 : Z) :
  h <> O -> w <> O -> cv2.Canny (uniform c h w) t1 t2 = uniform 0 h w.
Proof.
  intros Hh Hw. unfold cv2.Canny.
  rewrite !sepFilter2D_uniform by assumption.
  rewrite uniform_rows, uniform_cols by assumption.
  replace (sumZ [1; 2; 1] * (sumZ [-1; 0; 1] * c)) with 0 by (cbn; ring).
  replace (sumZ [-1; 0; 1] * (sumZ [1; 2; 1] * c)) with 0 by (cbn; ring).
  assert (Hl : np.tabulate h w
                 (cv2.nms (Z.min t1 t2) (Z.max t1 t2) (uniform 0 h w) (uniform 0 h w))
               = uniform 1 h w).
  { rewrite <- (tabulate_const h w 1). apply tabulate_ext. intros i j.
    unfold cv2.nms. rewrite !at2_uniform_same. cbn. now rewrite andb_false_r. }
  rewrite Hl. unfold cv2.hysteresis.
  rewrite iter_grow_fixed by now apply grow_uniform_1.
  now rewrite map_map_uniform.
Qed.

(** The sizes that normalize into the operators' range. *)
Lemma _odd_le_31 (k : Z) : edges._odd k <= 31 <-> k <= 31.
Proof.
  pose proof (_odd_bounds k) as Hb. split; intros H; [lia|].
  destruct (Z.eq_dec k 31) as [->|Hne]; [vm_compute; discriminate|lia].
Qed.

Lemma _odd_ge_1 (k : Z) : 1 <= edges._odd k <-> 0 <= k.
Proof.
  pose proof (_odd_bounds k) as Hb. split; intros H; [lia|].
  destruct (Z.eq_dec k 0) as [->|Hne]; [vm_compute; discriminate|lia].
Qed.

(** X5. On a uniform raster the single-axis Sobel gradients vanish: for
    every accepted kernel size the result is the all-zero raster. *)
Theorem run_sobel_axis_uniform (cv : cv2.build) (c : pixel3) (h w : nat) (ksize : Z) :
  (0 < h)%nat -> (0 < w)%nat -> ksize <= 31 ->
  edges.run_sobel cv (uniform c h w) ksize (Some "X"%string) = Some (uniform 0 h w) /\
  edges.run_sobel cv (uniform c h w) ksize (Some "Y"%string) = Some (uniform 0 h w).
Proof.
  intros Hh Hw Hk.
  assert (Hh' : h <> O) by lia. assert (Hw' : w <> O) by lia.
  apply (proj2 (_odd_le_31 ksize)) in Hk.
  rewrite run_sobel_X, run_sobel_Y, gray_uniform.
  destruct (Sobel_accepts (uniform (cv2.luma c) h w) 1 0 _ (_odd_is_odd ksize) Hk)
    as [gx Egx].
  destruct (Sobel_accepts (uniform (cv2.luma c) h w) 0 1 _ (_odd_is_odd ksize) Hk)
    as [gy Egy].
  rewrite Egx, Egy.
  apply Sobel_x_uniform in Egx; try assumption.
  apply Sobel_y_uniform in Egy; try assumption.
  subst gx gy. simpl. now rewrite convertScaleAbs_zero.
Qed.

Lemma run_sobel_axis_uniform_witness :
  (0 < 2)%nat /\ (0 < 3)%nat /\ 7 <= 31 /\
  edges.run_sobel sample_build (uniform (10, 200, 30) 2 3) 7 (Some "X"%string)
  = Some (uniform 0 2 3).
Proof.
  assert (H2 : (0 < 2)%nat) by lia.
  assert (H3 : (0 < 3)%nat) by lia.
  assert (Hk : 7 <= 31) by lia.
  split; [exact H2|]. split; [exact H3|]. split; [exact Hk|].
  exact (proj1 (run_sobel_axis_uniform sample_build (10, 200, 30) 2 3 7 H2 H3 Hk)).
Defined.

(** X6. On a uniform raster the Laplacian vanishes where it is computed
    in integers: for every kernel size from 0 to 5 the result is the
    all-zero raster, whatever the build. *)
Theorem run_laplacian_uniform (cv : cv2.build) (c : pixel3) (h w : nat) (ksize : Z) :
  (0 < h)%nat -> (0 < w)%nat -> 0 <= ksize <= 5 ->
  edges.run_laplacian cv (uniform c h w) ksize = Some (uniform 0 h w).
Proof.
  intros Hh Hw [Hk0 Hk1].
  assert (Hh' : h <> O) by lia. assert (Hw' : w <> O) by lia.
  assert (Hk5 : edges._odd ksize <= 5) by (apply _odd_least; [reflexivity|assumption]).
  assert (Hk31 : edges._odd ksize <= 31) by lia.
  apply (proj2 (_odd_ge_1 ksize)) in Hk0.
  destruct (run_laplacian_returns cv (uniform c h w) ksize (conj Hk0 Hk31)) as [out Hout].
  rewrite Hout. revert Hout. unfold edges.run_laplacian. rewrite gray_uniform.
  destruct (cv2.Laplacian cv (uniform (cv2.luma c) h w) (edges._odd ksize)) as [lap|] eqn:E;
    simpl; [|discriminate].
  intros [= <-]. apply Laplacian_uniform in E; try assumption. subst lap.
  now rewrite convertScaleAbs_zero.
Qed.

Lemma run_laplacian_uniform_witness :
  (0 < 2)%nat /\ (0 < 3)%nat /\ 0 <= 5 <= 5 /\
  edges.run_laplacian sample_build (uniform (131, 131, 131) 2 3) 5 = Some (uniform 0 2 3).
Proof.
  assert (H2 : (0 < 2)%nat) by lia.
  assert (H3 : (0 < 3)%nat) by lia.
  assert (Hk : 0 <= 5 <= 5) by lia.
  split; [exact H2|]. split; [exact H3|]. split; [exact Hk|].
  exact (run_laplacian_uniform sample_build (131, 131, 131) 2 3 5 H2 H3 Hk).
Defined.

(** X7. On a uniform raster [run_canny] finds no edge: whatever the
    thresholds, the kernel size, sigma and the Gaussian weights, the
    result is the all-zero raster. *)
Theorem run_canny_uniform (gk : Z -> spec_float -> list Z) (c : pixel3) (h w : nat)
    (low high ksize : Z) (sigma : spec_float) :
  (0 < h)%nat -> (0 < w)%nat ->
  edges.run_canny gk (uniform c h w) low high ksize sigma = uniform 0 h w.
Proof.
  intros Hh Hw.
  assert (Hh' : h <> O) by lia. assert (Hw' : w <> O) by lia.
  unfold edges.run_canny, edges._gaussian_blur. rewrite gray_uniform.
  destruct ((1 <? ksize) || SFltb (S754_zero false) sigma).
  - destruct (GaussianBlur_uniform gk (cv2.luma c) h w
                (edges._odd ksize, edges._odd ksize) sigma sigma Hh' Hw') as [c' ->].
    now apply Canny_uniform.
  - now apply Canny_uniform.
Qed.

Lemma run_canny_uniform_witness :
  (0 < 2)%nat /\ (0 < 3)%nat /\
  edges.run_canny binomial_kernel (uniform (10, 200, 30) 2 3) 100 200 5 sigma_1_0
  = uniform 0 2 3.
Proof.
  assert (H2 : (0 < 2)%nat) by lia.
  assert (H3 : (0 < 3)%nat) by lia.
  split; [exact H2|]. split; [exact H3|].
  exact (run_canny_uniform binomial_kernel (10, 200, 30) 2 3 100 200 5 sigma_1_0 H2 H3).
Defined.

(** ** The kernel sizes the filters accept *)

Lemma Sobel_rejects (src : plane) (dx dy : nat) (k : Z) :
  31 < k -> cv2.Sobel src dx dy k = None.
Proof.
  intros Hk. unfold cv2.Sobel, cv2.getDerivKernels.
  replace (k <=? 0) with false by (symmetry; apply Z.leb_gt; lia).
  replace (31 <? k) with true by (symmetry; apply Z.ltb_lt; lia).
  now rewrite orb_true_r.
Qed.

Lemma Laplacian_accepted (cv : cv2.build) (src lap : plane) (k : Z) :
  cv2.Laplacian cv src k = Some lap -> 1 <= k <= 31.
Proof.
  unfold cv2.Laplacian. destruct ((k =? 1) || (k =? 3)) eqn:E13.
  - intros _. apply orb_true_iff in E13.
    destruct E13 as [E|E]; apply Z.eqb_eq in E; lia.
  - destruct (k <=? 0) eqn:E0; [discriminate|]. simpl.
    destruct (Z.even k); [discriminate|]. simpl.
    destruct (31 <? k) eqn:E31; [discriminate|]. intros _.
    apply Z.leb_gt in E0. apply Z.ltb_ge in E31. lia.
Qed.

(** X8. [run_laplacian] returns a raster exactly for the kernel sizes from
    0 to 31; for any other size the operator raises. *)
Theorem run_laplacian_accepted_sizes (cv : cv2.build) (img_bgr : raster3) (ksize : Z) :
  (exists out, edges.run_laplacian cv img_bgr ksize = Some out) <-> 0 <= ksize <= 31.
Proof.
  split.
  - intros [out Hout]. unfold edges.run_laplacian in Hout.
    destruct (cv2.Laplacian cv (cv2.cvtColor_BGR2GRAY img_bgr) (edges._odd ksize))
      as [lap|] eqn:E; [|discriminate].
    apply Laplacian_accepted in E. destruct E as [E1 E2].
    split; [exact (proj1 (_odd_ge_1 ksize) E1)|exact (proj1 (_odd_le_31 ksize) E2)].
  - intros [H0 H31]. apply run_laplacian_returns.
    split; [exact (proj2 (_odd_ge_1 ksize) H0)|exact (proj2 (_odd_le_31 ksize) H31)].
Qed.

Lemma recognized_dec (direction : option string) :
  let d := str.capitalize (str.or_default direction "Both") in
  recognized direction <->
  (String.eqb d "X" || String.eqb d "Y" || String.eqb d "Both") = true.
Proof.
  intros d. unfold recognized. fold d. simpl.
  rewrite !orb_true_iff, !String.eqb_eq. intuition congruence.
Qed.

(** X9. [run_sobel] raises exactly when the direction names a gradient
    (or is missing) and the kernel size exceeds 31; with any other
    direction no gradient is computed and no size is rejected. *)
Theorem run_sobel_rejected_sizes (cv : cv2.build) (img_bgr : raster3) (ksize : Z)
    (direction : option string) :
  edges.run_sobel cv img_bgr ksize direction = None <->
  recognized direction /\ 31 < ksize.
Proof.
  rewrite recognized_dec. split.
  - intros Hnone. destruct (Z.le_gt_cases ksize 31) as [Hle|Hgt].
    + apply (proj2 (_odd_le_31 ksize)) in Hle.
      destruct (run_sobel_returns cv img_bgr ksize direction Hle) as [out Hout].
      congruence.
    + split; [|lia]. revert Hnone. unfold edges.run_sobel.
      set (d := str.capitalize (str.or_default direction "Both")).
      destruct (String.eqb d "X"); [reflexivity|].
      destruct (String.eqb d "Y"); [reflexivity|].
      destruct (String.eqb d "Both"); [reflexivity|]. simpl. discriminate.
  - intros [Hrec Hk].
    assert (Hk' : 31 < edges._odd ksize) by (pose proof (_odd_bounds ksize); lia).
    unfold edges.run_sobel.
    set (d := str.capitalize (str.or_default direction "Both")) in *.
    rewrite !Sobel_rejects by assumption.
    destruct (String.eqb d "X"); [reflexivity|].
    destruct (String.eqb d "Both"); [reflexivity|].
    destruct (String.eqb d "Y"); [reflexivity|]. discriminate.
Qed.

Lemma run_sobel_rejected_sizes_witness :
  recognized (Some "both"%string) /\ 31 < 32 /\
  edges.run_sobel sample_build step_edge 32 (Some "both"%string) = None.
Proof.
  assert (Hr : recognized (Some "both"%string)) by (right; right; left; reflexivity).
  assert (Hk : 31 < 32) by lia.
  split; [exact Hr|]. split; [exact Hk|].
  exact (proj2 (run_sobel_rejected_sizes sample_build step_edge 32 (Some "both"%string))
           (conj Hr Hk)).
Defined.

(** ** Gray images through the converters *)

Lemma luma_gray (v : Z) : cv2.luma (v, v, v) = v.
Proof.
  unfold cv2.luma, cv2.BY15, cv2.GY15, cv2.RY15. rewrite Z.shiftr_div_pow2 by lia.
  replace (v * 3735 + v * 19235 + v * 9798 + 16384) with (v * 2 ^ 15 + 16384)
    by (change (2 ^ 15) with 32768; ring).
  rewrite Z.div_add_l by (change (2 ^ 15) with 32768; lia).
  change (16384 / 2 ^ 15) with 0. ring.
Qed.

Lemma map_map_id {A : Type} (f : A -> A) (a : list (list A)) :
  (forall x, f x = x) -> map (map f) a = a.
Proof.
  intros Hf. rewrite <- (map_id a) at 2. apply map_ext. intros r.
  rewrite <- (map_id r) at 2. now apply map_ext.
Qed.

Lemma gray_of_replicated (g : plane) :
  cv2.cvtColor_BGR2GRAY
    (cv2.cvtColor_RGB2BGR (map (map (fun v => (v, v, v))) g)) = g.
Proof.
  unfold cv2.cvtColor_BGR2GRAY, cv2.cvtColor_RGB2BGR.
  rewrite !map_map. rewrite <- (map_id g) at 2. apply map_ext. intros r.
  rewrite !map_map. rewrite <- (map_id r) at 2. apply map_ext. intros v.
  apply luma_gray.
Qed.

(** X10. An edge map that went through [cv2_to_pil] and comes back through
    [pil_to_cv2] is a 3-channel array whose grayscale image, the one every
    filter starts from, is the edge map itself. *)
Theorem gray_export_reimport (g : plane) :
  exists c, image_io.pil_to_cv2 (image_io.cv2_to_pil (Arr2 g)) = Arr3 c /\
            cv2.cvtColor_BGR2GRAY c = g.
Proof.
  eexists. split; [reflexivity|]. apply gray_of_replicated.
Qed.

(** X11. For every 3-channel array, [cv2_to_pil] followed by [pil_to_cv2]
    returns the array: the two converters are inverse to each other in
    this order too. *)
Theorem bgr_rgb_roundtrip (c : raster3) :
  image_io.pil_to_cv2 (image_io.cv2_to_pil (Arr3 c)) = Arr3 c.
Proof.
  unfold image_io.pil_to_cv2, image_io.cv2_to_pil, PIL.fromarray. simpl.
  f_equal. unfold cv2.cvtColor_BGR2RGB, cv2.cvtColor_RGB2BGR.
  rewrite map_map. rewrite <- (map_id c) at 2. apply map_ext. intros r.
  rewrite map_map. rewrite <- (map_id r) at 2. apply map_ext.
  intros [[c0 c1] c2]. reflexivity.
Qed.

(** X12. An image in mode "L" enters the pipeline as a 3-channel array
    whose grayscale image is the image's own plane: a gray upload is
    filtered as it is. *)
Theorem gray_upload (px : plane) :
  exists c, image_io.pil_to_cv2 (PIL.ImageL px) = Arr3 c /\
            cv2.cvtColor_BGR2GRAY c = px.
Proof.
  eexists. split; [reflexivity|]. apply gray_of_replicated.
Qed.

(** ** The page *)

Lemma binary_in_u8 (a : plane) : all_pixels binary_sample a -> all_pixels in_u8 a.
Proof.
  unfold all_pixels. intros H. eapply Forall_impl; [|exact H].
  intros r Hr. eapply Forall_impl; [|exact Hr].
  intros p [-> | ->]; unfold in_u8; lia.
Qed.

Lemma astype_uint8_in_u8 (a : fplane) : all_pixels in_u8 (np.astype_uint8 a).
Proof.
  unfold all_pixels, np.astype_uint8.
  apply Forall_map, Forall_forall. intros r _.
  apply Forall_map, Forall_forall. intros v _.
  unfold in_u8. pose proof (Z.mod_pos_bound (np.SFtrunc v) 256 ltac:(lia)). lia.
Qed.

(** Whatever the direction, a raster that [run_sobel] returns is 8-bit. *)
Lemma run_sobel_in_u8 (cv : cv2.build) (img : raster3) (ksize : Z) (direction : option string)
    (out : plane) :
  edges.run_sobel cv img ksize direction = Some out -> all_pixels in_u8 out.
Proof.
  unfold edges.run_sobel.
  set (d := str.capitalize (str.or_default direction "Both")).
  destruct (if String.eqb d "X" || String.eqb d "Both"
            then cv2.Sobel (cv2.cvtColor_BGR2GRAY img) 1 0 (edges._odd ksize)
            else Some (np.zeros_like (cv2.cvtColor_BGR2GRAY img))) as [gx|];
    [|discriminate]. simpl.
  destruct (if String.eqb d "Y" || String.eqb d "Both"
            then cv2.Sobel (cv2.cvtColor_BGR2GRAY img) 0 1 (edges._odd ksize)
            else Some (np.zeros_like (cv2.cvtColor_BGR2GRAY img))) as [gy|];
    [|discriminate]. simpl.
  destruct (String.eqb d "Both"); intros [= <-].
  - apply astype_uint8_in_u8.
  - apply convertScaleAbs_in_u8.
Qed.

Lemma run_laplacian_in_u8 (cv : cv2.build) (img : raster3) (ksize : Z) (out : plane) :
  edges.run_laplacian cv img ksize = Some out -> all_pixels in_u8 out.
Proof.
  unfold edges.run_laplacian.
  destruct (cv2.Laplacian cv (cv2.cvtColor_BGR2GRAY img) (edges._odd ksize)); simpl;
    [|discriminate].
  intros [= <-]. apply convertScaleAbs_in_u8.
Qed.

Lemma slider_odd (lo hi v : Z) :
  Z.odd lo = true -> slider_value lo hi 2 v -> Z.odd v = true.
Proof.
  intros Hlo [_ Hstep].
  replace v with (lo + (v - lo)) by ring.
  rewrite Z.odd_add, Hlo.
  rewrite (Zmod_odd (v - lo)) in Hstep.
  destruct (Z.odd (v - lo)); [discriminate|reflexivity].
Qed.

(** X13. The kernel size a slider of the page returns (1 to 15 in steps
    of 2) is odd already, so every filter runs with the size the user
    set. *)
Theorem slider_size_unchanged (v : Z) :
  slider_value 1 15 2 v -> edges._odd v = v.
Proof. intros H. apply _odd_of_odd. now apply (slider_odd 1 15). Qed.

Lemma slider_size_unchanged_witness :
  slider_value 1 15 2 7 /\ edges._odd 7 = 7.
Proof.
  assert (H : slider_value 1 15 2 7) by (split; [lia|reflexivity]).
  split; [exact H|exact (slider_size_unchanged 7 H)].
Defined.

(** X14. Whatever the widgets hold, the recompute never raises
    [KeyError]: every key it reads was written by the sidebar branch of
    the same algorithm. *)
Theorem process_no_KeyError (gk : Z -> spec_float -> list Z) (cv : cv2.build)
    (ui : app.widgets)
    (bgr : ndarray) (key : string) :
  app.process gk cv (fst (app.controls ui)) (snd (app.controls ui)) bgr
  <> app.KeyError key.
Proof.
  unfold app.controls, app.process.
  destruct (String.eqb (app.radio ui "Edge Detection Algorithm") "Canny") eqn:Ec.
  - cbn [fst snd]. rewrite Ec. simpl. destruct bgr; discriminate.
  - destruct (String.eqb (app.radio ui "Edge Detection Algorithm") "Sobel") eqn:Es.
    + cbn [fst snd]. rewrite Ec, Es. simpl. destruct bgr; simpl; [discriminate|].
      destruct (edges.run_sobel _ _ _ _); discriminate.
    + cbn [fst snd]. rewrite Ec, Es. simpl. destruct bgr; simpl; [discriminate|].
      destruct (edges.run_laplacian _ _ _); discriminate.
Qed.

Lemma slider_size_range (v : Z) : slider_value 1 15 2 v -> 0 <= v <= 31.
Proof. intros [H _]. lia. Qed.

Lemma run_canny_has_shape (gk : Z -> spec_float -> list Z) (h w : nat)
    (img : raster3) (low high ksize : Z) (sigma : spec_float) :
  has_shape h w img -> has_shape h w (edges.run_canny gk img low high ksize sigma).
Proof.
  intros Himg. unfold edges.run_canny, edges._gaussian_blur.
  apply Canny_has_shape.
  destruct ((1 <? ksize) || SFltb (S754_zero false) sigma).
  - now apply GaussianBlur_has_shape, cvtColor_BGR2GRAY_has_shape.
  - now apply cvtColor_BGR2GRAY_has_shape.
Qed.

Lemma run_sobel_has_shape (cv : cv2.build) (h w : nat) (img : raster3) (ksize : Z)
    (direction : option string) (out : plane) :
  has_shape h w img -> edges.run_sobel cv img ksize direction = Some out ->
  has_shape h w out.
Proof.
  intros Himg. unfold edges.run_sobel.
  pose proof (cvtColor_BGR2GRAY_has_shape h w img Himg) as Hgray.
  set (gray := cv2.cvtColor_BGR2GRAY img) in *.
  set (d := str.capitalize (str.or_default direction "Both")).
  assert (Hz : has_shape h w (np.zeros_like gray))
    by (unfold np.zeros_like; now apply tabulate_like).
  destruct (String.eqb d "X" || String.eqb d "Both");
    destruct (String.eqb d "Y" || String.eqb d "Both");
    try (destruct (cv2.Sobel gray 1 0 (edges._odd ksize)) as [gx|] eqn:Ex;
         [apply (Sobel_has_shape h w) in Ex; [|assumption]|discriminate]);
    try (destruct (cv2.Sobel gray 0 1 (edges._odd ksize)) as [gy|] eqn:Ey;
         [apply (Sobel_has_shape h w) in Ey; [|assumption]|discriminate]);
    simpl; destruct (String.eqb d "Both"); intros [= <-];
    try (unfold cv2.convertScaleAbs; now apply map_map_has_shape);
    unfold np.astype_uint8, cv2.normalize_MINMAX;
    destruct (cv2.minmax_scale_shift 0 255 _) as [scale shift];
    apply map_map_has_shape, map_map_has_shape;
    unfold cv2.magnitude; apply zip_has_shape;
    unfold np.astype_float32; now apply map_map_has_shape.
Qed.

Lemma run_laplacian_has_shape (cv : cv2.build) (h w : nat) (img : raster3) (ksize : Z)
    (out : plane) :
  has_shape h w img -> edges.run_laplacian cv img ksize = Some out -> has_shape h w out.
Proof.
  intros Himg. unfold edges.run_laplacian.
  destruct (cv2.Laplacian cv (cv2.cvtColor_BGR2GRAY img) (edges._odd ksize))
    as [lap|] eqn:E; simpl; [|discriminate].
  intros [= <-]. unfold cv2.convertScaleAbs. apply map_map_has_shape.
  apply (Laplacian_has_shape cv h w _ lap _ (cvtColor_BGR2GRAY_has_shape h w img Himg) E).
Qed.

(** With the widgets in range the recompute returns, and what it returns
    has the size of the input. *)
Lemma process_returns (gk : Z -> spec_float -> list Z) (cv : cv2.build) (ui : app.widgets)
    (h w : nat) (c : raster3) :
  ui_ok ui -> has_shape h w c ->
  exists out,
    app.process gk cv (fst (app.controls ui)) (snd (app.controls ui)) (Arr3 c)
    = app.Ok out /\ has_shape h w out.
Proof.
  intros (Halgo & Hgk & _ & _ & Hk & Hdir) Hc.
  apply slider_size_range in Hk.
  unfold app.controls, app.process.
  destruct (String.eqb (app.radio ui "Edge Detection Algorithm") "Canny") eqn:Ec.
  - cbn [fst snd]. rewrite Ec. simpl. eexists. split; [reflexivity|].
    now apply run_canny_has_shape.
  - destruct (String.eqb (app.radio ui "Edge Detection Algorithm") "Sobel") eqn:Es.
    + cbn [fst snd]. rewrite Ec, Es. simpl.
      assert (Hle : edges._odd (app.slider ui "Kernel size") <= 31)
        by (apply _odd_le_31; lia).
      destruct (run_sobel_returns cv c (app.slider ui "Kernel size")
                  (Some (app.selectbox ui "Gradient direction")) Hle) as [out Hout].
      rewrite Hout. simpl. exists out. split; [reflexivity|].
      now apply (run_sobel_has_shape _ h w _ _ _ _ Hc Hout).
    + cbn [fst snd]. rewrite Ec, Es. simpl.
      assert (Hr : 1 <= edges._odd (app.slider ui "Kernel size") <= 31)
        by (split; [apply _odd_ge_1|apply _odd_le_31]; lia).
      destruct (run_laplacian_returns cv c (app.slider ui "Kernel size") Hr) as [out Hout].
      rewrite Hout. simpl. exists out. split; [reflexivity|].
      now apply (run_laplacian_has_shape _ h w _ _ _ Hc Hout).
Qed.

(** Whatever the algorithm and the parameters, a raster that the
    recompute returns is 8-bit. *)
Lemma process_in_u8 (gk : Z -> spec_float -> list Z) (cv : cv2.build) (algo : string)
    (params : app.dict) (bgr : ndarray) (out : plane) :
  app.process gk cv algo params bgr = app.Ok out -> all_pixels in_u8 out.
Proof.
  unfold app.process.
  destruct (String.eqb algo "Canny"); [|destruct (String.eqb algo "Sobel")].
  - destruct (app.d_low params); simpl; [|discriminate].
    destruct (app.d_high params); simpl; [|discriminate].
    destruct (app.d_ksize params); simpl; [|discriminate].
    destruct (app.d_sigma params); simpl; [|discriminate].
    destruct bgr; simpl; [discriminate|]. intros [= <-].
    unfold edges.run_canny. apply binary_in_u8, Canny_binary.
  - destruct (app.d_ksize params); simpl; [|discriminate].
    destruct (app.d_direction params); simpl; [|discriminate].
    destruct bgr; simpl; [discriminate|].
    destruct (edges.run_sobel _ _ _ _) eqn:E; simpl; [|discriminate].
    intros [= <-]. now apply (run_sobel_in_u8 _ _ _ _ _ E).
  - destruct (app.d_ksize params); simpl; [|discriminate].
    destruct bgr; simpl; [discriminate|].
    destruct (edges.run_laplacian _ _ _) eqn:E; simpl; [|discriminate].
    intros [= <-]. now apply (run_laplacian_in_u8 _ _ _ _ E).
Qed.

(** X15. With every widget inside the range the page gives it, the
    recompute raises nothing: for a 3-channel raster it returns an 8-bit
    raster of the raster's height and width. *)
Theorem process_in_range (gk : Z -> spec_float -> list Z) (cv : cv2.build) (ui : app.widgets)
    (h w : nat) (c : raster3) :
  ui_ok ui -> has_shape h w c ->
  exists out,
    app.process gk cv (fst (app.controls ui)) (snd (app.controls ui)) (Arr3 c)
    = app.Ok out /\
    has_shape h w out /\ all_pixels in_u8 out.
Proof.
  intros Hui Hc. destruct (process_returns gk cv ui h w c Hui Hc) as (out & Hout & Hs).
  exists out. split; [exact Hout|]. split; [exact Hs|].
  exact (process_in_u8 gk cv _ _ _ out Hout).
Qed.

Lemma default_ui_ok (algo direction : string) :
  In algo ["Canny"; "Sobel"; "Laplacian"]%string ->
  In direction ["X"; "Y"; "Both"]%string ->
  ui_ok (default_ui algo direction).
Proof.
  intros Ha Hd. unfold ui_ok, default_ui, slider_value. simpl.
  repeat split; try assumption; try lia.
Qed.

Lemma step_edge_shape : has_shape 3 3 step_edge.
Proof. split; [reflexivity|]. repeat constructor. Qed.

Lemma process_in_range_witness :
  ui_ok (default_ui "Sobel" "X") /\ has_shape 3 3 step_edge /\
  exists out,
    app.process binomial_kernel sample_build (fst (app.controls (default_ui "Sobel" "X")))
      (snd (app.controls (default_ui "Sobel" "X"))) (Arr3 step_edge) = app.Ok out /\
    has_shape 3 3 out /\ all_pixels in_u8 out.
Proof.
  assert (Hui : ui_ok (default_ui "Sobel" "X")).
  { apply default_ui_ok; simpl; auto. }
  split; [exact Hui|]. split; [exact step_edge_shape|].
  exact (process_in_range binomial_kernel sample_build (default_ui "Sobel" "X") 3 3 step_edge
           Hui step_edge_shape).
Defined.

(** X16. For an upload of [h] by [w] pixels and widgets in range, the
    script ends normally.  The page shows the upload in mode "RGB" and an
    output raster of [h] by [w] samples, and the download image has the
    output's sample in each of its three channels.  Without an upload
    the script stops and shows nothing. *)
Theorem script_page (gk : Z -> spec_float -> list Z) (cv : cv2.build) (ui : app.widgets)
    (h w : nat) (img : PIL.Image) :
  ui_ok ui -> has_shape h w (PIL.array_RGB img) ->
  (exists out,
     app.script gk cv ui (Some img)
     = app.Ok (Some {| app.shown_input := PIL.ImageRGB (PIL.array_RGB img);
                       app.shown_output := out;
                       app.download := gray_image out |}) /\
     has_shape h w out) /\
  app.script gk cv ui None = app.Ok None.
Proof.
  intros Hui Himg. split; [|reflexivity].
  unfold app.script.
  assert (Hbgr : image_io.pil_to_cv2 (app.convert_RGB img)
                 = Arr3 (cv2.cvtColor_RGB2BGR (PIL.array_RGB img))) by reflexivity.
  rewrite Hbgr.
  assert (Hc : has_shape h w (cv2.cvtColor_RGB2BGR (PIL.array_RGB img)))
    by now apply map_map_has_shape.
  destruct (process_returns gk cv ui h w _ Hui Hc) as (out & Hout & Hshape).
  destruct (app.controls ui) as [algo params]. cbn [fst snd] in Hout.
  rewrite Hout. simpl. exists out. split; [reflexivity|assumption].
Qed.

Lemma script_page_witness :
  ui_ok (default_ui "Canny" "Both") /\
  has_shape 3 3 (PIL.array_RGB (PIL.ImageRGB step_edge)) /\
  exists out,
    app.script binomial_kernel sample_build (default_ui "Canny" "Both")
      (Some (PIL.ImageRGB step_edge))
    = app.Ok (Some {| app.shown_input := PIL.ImageRGB step_edge;
                      app.shown_output := out;
                      app.download := gray_image out |}) /\
    has_shape 3 3 out.
Proof.
  assert (Hui : ui_ok (default_ui "Canny" "Both")).
  { apply default_ui_ok; simpl; auto. }
  split; [exact Hui|]. split; [exact step_edge_shape|].
  exact (proj1 (script_page binomial_kernel sample_build (default_ui "Canny" "Both") 3 3
                  (PIL.ImageRGB step_edge) Hui step_edge_shape)).
Defined.
